(** * Event ticket platform: inventory ledger, order lifecycle, payment checks

    A shallow embedding of the service layer ([app/services]) and of the
    order endpoints ([app/api/orders.py]) of the ticketing backend.

    Conventions of the embedding.
    - Python [int] is [Z]; [Optional[T]] is [option T]; [str] is [string],
      read as a sequence of code points below 256.
    - The SQLAlchemy session is a value of type [DB]: one finite map per
      table, keyed by primary key, plus the next key each table hands out.
      Every service method ends in [commit], so a method is a function
      [DB -> result * DB]; a method that raises before its [commit] returns
      the store it was given.
    - Exceptions are values of [exn]; [Raise e] is a raised exception.
    - The clock ([datetime.utcnow()]) and the random source ([uuid.uuid4()])
      are arguments.
    - Python [float] is the binary64 [float] of the kernel; an [int] that
      meets a [float] in a product is converted first, and the conversion
      raises [OverflowError] beyond the largest binary64 value.
    - A method that is called but defined nowhere raises [AttributeError]
      at the call, as the attribute lookup does.
    - Columns without a role in inventory or in the order life cycle
      (title, description, location, dates, image url, created/updated
      stamps) are left out of the records, and so are log lines and the
      notification tasks queued on [BackgroundTasks].
    - The database's own checks (foreign keys, NOT NULL, column widths) are
      not modelled. A [commit] succeeds, except in the module [Fallible],
      where the outcome of each [commit] on the way of an order is an
      argument, and requests run one at a time, except in the module
      [Interleaving], where reservations are split into their read and
      their write. *)

From Stdlib Require Import ZArith String Ascii List Lia Bool Floats.
From stdpp Require Import base option gmap strings pretty.

Local Open Scope string_scope.
Local Open Scope Z_scope.

(* Decimal prices such as 0.1 are read as the nearest binary64 value. *)
#[local] Set Warnings "-inexact-float".

(** ** Python values *)

Inductive exn : Type :=
| ValueError (msg : string)
| TypeError (msg : string)
| AttributeError (msg : string)
| OverflowError (msg : string)
| SQLAlchemyError (msg : string)
| HTTPException (status_code : Z) (detail : string).

Inductive result (A : Type) : Type :=
| Ok (a : A)
| Raise (e : exn).
Arguments Ok {A} a.
Arguments Raise {A} e.

(** [float(n)] for an [int] [n], as Python converts the integer operand of
    [x * n] when [x] is a float: the nearest binary64 value, ties to even,
    and [OverflowError] when that lies beyond the largest finite one. *)
Definition float_of_int (n : Z) : result float :=
  let f := SF2Prim (binary_normalize 53 1024 n 0 false) in
  if PrimFloat.is_infinity f then
    Raise (OverflowError "int too large to convert to float")
  else Ok f.

(** [x * n] for a float [x] and an [int] [n]. *)
Definition float_mul_int (x : float) (n : Z) : result float :=
  match float_of_int n with
  | Ok f => Ok (PrimFloat.mul x f)
  | Raise e => Raise e
  end.

(** [str(x)] inside an f-string, for an optional string: [None] prints as
    the four letters [None]. *)
Definition py_str (o : option string) : string :=
  match o with
  | Some s => s
  | None => "None"
  end.

(** Truth value of an optional string, integer or boolean ([if x:]). *)
Definition truthy_str (o : option string) : bool :=
  match o with
  | Some "" => false
  | Some _ => true
  | None => false
  end.

Definition truthy_int (o : option Z) : bool :=
  match o with
  | Some z => negb (z =? 0)
  | None => false
  end.

Definition truthy_bool (o : option bool) : bool :=
  match o with
  | Some b => b
  | None => false
  end.

(** A field of a pydantic update model read through
    [dict(exclude_unset=True)]: absent from the dict, present with [None],
    or present with a value. *)
Inductive field (A : Type) : Type :=
| Unset
| Null
| Val (a : A).
Arguments Unset {A}.
Arguments Null {A}.
Arguments Val {A} a.

(** [setattr] of such a field on a nullable column. *)
Definition set_field {A} (f : field A) (old : option A) : option A :=
  match f with
  | Unset => old
  | Null => None
  | Val a => Some a
  end.

(** ** Models ([app/models]) *)

Inductive OrderStatus : Type := PENDING | PAID | CANCELED | REFUNDED.

#[global] Instance OrderStatus_eq_dec : EqDecision OrderStatus.
Proof. solve_decision. Defined.

Module Event.
Record t : Type := mk {
  id : Z;
  total_capacity : Z;
  available_tickets : Z;
  ticket_price : float;
  is_published : option bool;
  is_canceled : option bool
}.

Definition with_available_tickets (e : t) (v : Z) : t :=
  mk (id e) (total_capacity e) v (ticket_price e) (is_published e) (is_canceled e).
End Event.

Module Order.
Record t : Type := mk {
  id : Z;
  user_id : Z;
  event_id : Z;
  quantity : Z;
  unit_price : float;
  total_amount : float;
  status : OrderStatus;
  payment_id : option string;
  payment_method : option string;
  paid_at : option Z
}.

Definition with_status (o : t) (s : OrderStatus) : t :=
  mk (id o) (user_id o) (event_id o) (quantity o) (unit_price o)
     (total_amount o) s (payment_id o) (payment_method o) (paid_at o).

Definition with_payment_id (o : t) (p : option string) : t :=
  mk (id o) (user_id o) (event_id o) (quantity o) (unit_price o)
     (total_amount o) (status o) p (payment_method o) (paid_at o).

Definition with_paid_at (o : t) (ts : option Z) : t :=
  mk (id o) (user_id o) (event_id o) (quantity o) (unit_price o)
     (total_amount o) (status o) (payment_id o) (payment_method o) ts.
End Order.

Module User.
Record t : Type := mk {
  id : Z;
  email : string;
  is_active : bool;
  is_admin : bool
}.
End User.

(** ** The store *)

Record DB : Type := mkDB {
  events : gmap Z Event.t;
  orders : gmap Z Order.t;
  next_event_id : Z;
  next_order_id : Z
}.

Definition with_events (db : DB) (m : gmap Z Event.t) : DB :=
  mkDB m (orders db) (next_event_id db) (next_order_id db).

Definition with_orders (db : DB) (m : gmap Z Order.t) : DB :=
  mkDB (events db) m (next_event_id db) (next_order_id db).

(** [db.add(row); db.commit()] for a row fetched by primary key [key]: the
    UPDATE addresses the row by that key. *)
Definition save_event (key : Z) (e : Event.t) (db : DB) : DB :=
  with_events db (<[key := e]> (events db)).

Definition save_order (key : Z) (o : Order.t) (db : DB) : DB :=
  with_orders db (<[key := o]> (orders db)).

(** ** Schemas ([app/schemas]) *)

Module EventCreate.
Record t : Type := mk {
  total_capacity : Z;
  ticket_price : float;
  is_published : bool
}.

(** The validators [capacity_must_be_positive] ([v <= 0] is refused) and
    [price_must_be_positive] ([v < 0] is refused) of [EventBase]. *)
Definition valid (ec : t) : Prop :=
  0 < total_capacity ec /\ PrimFloat.ltb (ticket_price ec) 0 = false.
End EventCreate.

Module EventUpdate.
Record t : Type := mk {
  total_capacity : field Z;
  is_published : field bool;
  is_canceled : field bool
}.

(** [capacity_must_be_positive]: a value that is not [None] is positive. *)
Definition valid (eu : t) : Prop :=
  match total_capacity eu with
  | Val v => 0 < v
  | _ => True
  end.
End EventUpdate.

Module OrderCreate.
Record t : Type := mk {
  event_id : Z;
  quantity : Z;
  payment_method : string
}.

(** [quantity: int = Field(..., gt=0)]. *)
Definition valid (oc : t) : Prop := 0 < quantity oc.
End OrderCreate.

(** ** [EventService] ([app/services/event_service.py]) *)

Module EventService.

Definition get (id : Z) (db : DB) : option Event.t := events db !! id.

Definition create (ec : EventCreate.t) (db : DB) : Event.t * DB :=
  let db_event :=
    Event.mk (next_event_id db)
             (EventCreate.total_capacity ec)
             (EventCreate.total_capacity ec)
             (EventCreate.ticket_price ec)
             (Some (EventCreate.is_published ec))
             (Some false) in
  (db_event,
   mkDB (<[next_event_id db := db_event]> (events db)) (orders db)
        (next_event_id db + 1) (next_order_id db)).

(** The [for field, value in update_data.items(): setattr(...)] loop. *)
Definition apply_update (event : Event.t) (total : option Z) (available : option Z)
    (eu : EventUpdate.t) : Event.t :=
  Event.mk (Event.id event)
           (default (Event.total_capacity event) total)
           (default (Event.available_tickets event) available)
           (Event.ticket_price event)
           (set_field (EventUpdate.is_published eu) (Event.is_published event))
           (set_field (EventUpdate.is_canceled eu) (Event.is_canceled event)).

Definition update (event : Event.t) (eu : EventUpdate.t) (db : DB)
    : result Event.t * DB :=
  match EventUpdate.total_capacity eu with
  | Unset =>
      let event' := apply_update event None None eu in
      (Ok event', save_event (Event.id event) event' db)
  | Null =>
      (* update_data["total_capacity"] - event.total_capacity with None *)
      (Raise (TypeError "unsupported operand type(s) for -: 'NoneType' and 'int'"), db)
  | Val new_total =>
      let capacity_diff := new_total - Event.total_capacity event in
      let new_available := Event.available_tickets event + capacity_diff in
      if new_available <? 0 then
        let tickets_sold := Event.total_capacity event - Event.available_tickets event in
        if tickets_sold >? new_total then
          (Raise (ValueError ("Cannot reduce capacity below tickets already sold ("
                              +:+ pretty tickets_sold +:+ ")")),
           db)
        else
          let event' := apply_update event (Some new_total) (Some 0) eu in
          (Ok event', save_event (Event.id event) event' db)
      else
        let event' := apply_update event (Some new_total) (Some new_available) eu in
        (Ok event', save_event (Event.id event) event' db)
  end.

Definition decrease_available_tickets (event_id quantity : Z) (db : DB) : bool * DB :=
  match get event_id db with
  | None => (false, db)
  | Some event =>
      if truthy_bool (Event.is_canceled event) then (false, db)
      else if Event.available_tickets event <? quantity then (false, db)
      else
        (true,
         save_event event_id
           (Event.with_available_tickets event (Event.available_tickets event - quantity))
           db)
  end.

Definition increase_available_tickets (event_id quantity : Z) (db : DB) : bool * DB :=
  match get event_id db with
  | None => (false, db)
  | Some event =>
      let new_available :=
        Z.min (Event.available_tickets event + quantity) (Event.total_capacity event) in
      (true, save_event event_id (Event.with_available_tickets event new_available) db)
  end.

End EventService.

(** ** [OrderService] ([app/services/order_service.py]) *)

Module OrderService.

(** [self.get(id=order_id)] and [order_service.get(id=order_id)]. The class
    defines [get_user_orders], [get_all_orders], [create], [update_status],
    [cancel_order] and [get_order_with_event_details]; it defines no [get],
    has no base class and no [__getattr__]. The attribute lookup raises
    before the database is read. *)
Definition get (id : Z) (db : DB) : result (option Order.t) :=
  Raise (AttributeError "'OrderService' object has no attribute 'get'").

(** [create], every commit going through; [Fallible.create] below is the
    same method with commits that can fail. *)
Definition create (user_id event_id quantity : Z) (payment_method : string)
    (unit_price : float) (db : DB) : result Order.t * DB :=
  match float_mul_int unit_price quantity with
  | Raise e => (Raise e, db)
  | Ok total_amount =>
      let db_order :=
        Order.mk (next_order_id db) user_id event_id quantity unit_price total_amount
                 PENDING None (Some payment_method) None in
      (* db.add(db_order); db.commit() *)
      let db1 :=
        mkDB (events db) (<[next_order_id db := db_order]> (orders db))
             (next_event_id db) (next_order_id db + 1) in
      let '(success, db2) :=
        EventService.decrease_available_tickets event_id quantity db1 in
      if negb success then
        (* db.delete(db_order); db.commit(); raise *)
        (Raise (ValueError "Failed to reserve tickets. Not enough available tickets."),
         with_orders db2 (delete (Order.id db_order) (orders db2)))
      else
        (Ok db_order, db2)
  end.

Definition update_status (order_id : Z) (status : OrderStatus)
    (payment_id : option string) (now : Z) (db : DB) : result Order.t * DB :=
  match get order_id db with
  | Raise e => (Raise e, db)
  | Ok None => (Raise (ValueError "Order not found"), db)
  | Ok (Some order) =>
      let order := Order.with_status order status in
      let order :=
        if truthy_str payment_id then Order.with_payment_id order payment_id
        else order in
      let order :=
        if decide (status = PAID) then Order.with_paid_at order (Some now)
        else order in
      (Ok order, save_order order_id order db)
  end.

Definition cancel_order (order_id : Z) (refund_id : option string) (db : DB)
    : result Order.t * DB :=
  match get order_id db with
  | Raise e => (Raise e, db)
  | Ok None => (Raise (ValueError "Order not found"), db)
  | Ok (Some order) =>
      let old_payment_id := Order.payment_id order in
      let order := Order.with_status order CANCELED in
      let order :=
        if truthy_str refund_id then
          Order.with_payment_id order
            (Some (py_str old_payment_id +:+ ":refund:" +:+ py_str refund_id))
        else order in
      (Ok order, save_order order_id order db)
  end.

(** [OrderRead] is the order's columns plus the event's title and date;
    the model keeps the order's columns. *)
Definition get_order_with_event_details (order_id : Z) (db : DB)
    : result (option Order.t) :=
  match get order_id db with
  | Raise e => Raise e
  | Ok None => Ok None
  | Ok (Some order) =>
      match EventService.get (Order.event_id order) db with
      | None => Ok None
      | Some _ => Ok (Some order)
      end
  end.

End OrderService.

(** ** Python string methods used by the card checks *)

(** [s.replace(c, "")] for a one-character [c]. *)
Fixpoint remove_char (c : ascii) (s : string) : string :=
  match s with
  | EmptyString => EmptyString
  | String a rest =>
      if Ascii.eqb a c then remove_char c rest else String a (remove_char c rest)
  end.

(** The code points below 256 on which [str.isdigit] holds: the ten ASCII
    digits and the superscripts two, three and one (178, 179, 185). *)
Definition isdigit_char (a : ascii) : bool :=
  let n := Z.of_N (N_of_ascii a) in
  ((48 <=? n) && (n <=? 57)) || (n =? 178) || (n =? 179) || (n =? 185).

Fixpoint all_digits (s : string) : bool :=
  match s with
  | EmptyString => true
  | String a rest => isdigit_char a && all_digits rest
  end.

(** [s.isdigit()]: at least one character, and all of them digits. *)
Definition isdigit (s : string) : bool :=
  match s with
  | EmptyString => false
  | _ => all_digits s
  end.

Definition len (s : string) : Z := Z.of_nat (String.length s).

(** [payment_details]: the dict the endpoint builds from [PaymentProcess]
    (four card keys, each possibly [None]); [paypal_email] is [None] when
    the key is absent. *)
Module PaymentDetails.
Record t : Type := mk {
  card_number : option string;
  card_exp_month : option Z;
  card_exp_year : option Z;
  card_cvc : option string;
  paypal_email : option string
}.
End PaymentDetails.

(** The result dict of [process_payment], keys [success], [error] and
    [payment_id]. *)
Module PaymentResult.
Record t : Type := mk {
  success : bool;
  error : option string;
  payment_id : option string
}.
End PaymentResult.

(** ** [PaymentService], first class of [payment_service.py] (lines 10-314)

    The module defines [class PaymentService] twice; the second definition
    rebinds the name, so this first one is never the class the endpoints
    instantiate. *)

Module PaymentServiceFirst.
Import PaymentDetails.

Record validation : Type := mkValidation {
  valid : bool;
  verror : option string
}.

Definition invalid (msg : string) : validation := mkValidation false (Some msg).

Definition _validate_credit_card (d : PaymentDetails.t)
    (current_year current_month : Z) : validation :=
  if negb (truthy_str (card_number d)) then
    invalid "Missing required field: card_number"
  else if negb (truthy_int (card_exp_month d)) then
    invalid "Missing required field: card_exp_month"
  else if negb (truthy_int (card_exp_year d)) then
    invalid "Missing required field: card_exp_year"
  else if negb (truthy_str (card_cvc d)) then
    invalid "Missing required field: card_cvc"
  else
    let card_number :=
      remove_char "-" (remove_char " " (default "" (card_number d))) in
    if negb (isdigit card_number)
       || negb ((13 <=? len card_number) && (len card_number <=? 19)) then
      invalid "Invalid card number format"
    else
      let exp_month := default 0 (card_exp_month d) in
      let exp_year := default 0 (card_exp_year d) in
      if negb ((1 <=? exp_month) && (exp_month <=? 12)) then
        invalid "Invalid expiration month"
      else if (exp_year <? current_year)
              || ((exp_year =? current_year) && (exp_month <? current_month)) then
        invalid "Card has expired"
      else
        let cvc := default "" (card_cvc d) in
        if negb (isdigit cvc) || negb ((3 <=? len cvc) && (len cvc <=? 4)) then
          invalid "Invalid CVC format"
        else mkValidation true None.

Definition _validate_paypal (d : PaymentDetails.t) : validation :=
  if negb (truthy_str (paypal_email d)) then invalid "Missing PayPal email"
  else mkValidation true None.

Definition _validate_payment_details (payment_method : string)
    (d : PaymentDetails.t) (current_year current_month : Z) : validation :=
  if String.eqb payment_method "credit_card" then
    _validate_credit_card d current_year current_month
  else if String.eqb payment_method "paypal" then _validate_paypal d
  else invalid ("Unsupported payment method: " +:+ payment_method).

(** [uuid_hex] and [uuid_int] are the two [uuid.uuid4()] draws. *)
Definition process_payment (amount : float) (payment_method : string)
    (d : PaymentDetails.t) (current_year current_month : Z)
    (uuid_hex : string) (uuid_int : Z) : PaymentResult.t :=
  let validation_result :=
    _validate_payment_details payment_method d current_year current_month in
  if negb (valid validation_result) then
    PaymentResult.mk false (verror validation_result) None
  else
    let payment_id := "pay_" +:+ String.substring 0 16 uuid_hex in
    if uuid_int mod 10 =? 0 then
      PaymentResult.mk false (Some "Payment declined by issuer") (Some payment_id)
    else
      PaymentResult.mk true None (Some payment_id).

End PaymentServiceFirst.

(** ** [PaymentService], second class of [payment_service.py] (lines 323-435)

    This is the class bound to the name [PaymentService] once the module is
    loaded, hence the one [app/api/orders.py] instantiates. *)

Module PaymentService.
Import PaymentDetails.

Definition _validate_credit_card (d : PaymentDetails.t) : bool :=
  if negb (truthy_str (card_number d)) then false
  else if negb (truthy_int (card_exp_month d)) then false
  else if negb (truthy_int (card_exp_year d)) then false
  else if negb (truthy_str (card_cvc d)) then false
  else
    let card_number :=
      remove_char "-" (remove_char " " (default "" (card_number d))) in
    if negb (isdigit card_number)
       || negb ((13 <=? len card_number) && (len card_number <=? 19)) then
      false
    else
      let exp_month := default 0 (card_exp_month d) in
      let exp_year := default 0 (card_exp_year d) in
      if negb ((1 <=? exp_month) && (exp_month <=? 12))
         || negb ((2000 <=? exp_year) && (exp_year <=? 2100)) then
        false
      else
        let cvc := default "" (card_cvc d) in
        if negb (isdigit cvc) || negb ((3 <=? len cvc) && (len cvc <=? 4)) then
          false
        else true.

Definition process_payment (amount : float) (payment_method : string)
    (d : PaymentDetails.t) (uuid_hex : string) : PaymentResult.t :=
  if String.eqb payment_method "credit_card" && negb (_validate_credit_card d) then
    PaymentResult.mk false (Some "Invalid credit card details") None
  else
    let payment_id := "payment_" +:+ String.substring 0 10 uuid_hex in
    PaymentResult.mk true None (Some payment_id).

End PaymentService.

(** ** Order endpoints ([app/api/orders.py]) *)

Module PaymentProcess.
Record t : Type := mk {
  order_id : Z;
  payment_method : string;
  card_number : option string;
  card_exp_month : option Z;
  card_exp_year : option Z;
  card_cvc : option string
}.

(** The [payment_details] dict both [process_payment] endpoints build. *)
Definition details (p : t) : PaymentDetails.t :=
  PaymentDetails.mk (card_number p) (card_exp_month p) (card_exp_year p)
                    (card_cvc p) None.
End PaymentProcess.

Module PaymentResponse.
Record t : Type := mk {
  order_id : Z;
  status : OrderStatus;
  payment_id : option string;
  message : string
}.
End PaymentResponse.

(** [order.user_id != current_user.id and not current_user.is_admin] *)
Definition not_permitted (order : Order.t) (current_user : User.t) : bool :=
  negb (Order.user_id order =? User.id current_user)
  && negb (User.is_admin current_user).

(** The bodies shared word for word by the two halves of the file. *)
Module OrdersCommon.

(** Lines 52-76 and 385-409: the checks of [create_order] before the
    order is written. *)
Definition create_order_checks (order_create : OrderCreate.t) (db : DB)
    : result Event.t :=
  match EventService.get (OrderCreate.event_id order_create) db with
  | None => Raise (HTTPException 404 "Event not found")
  | Some event =>
      if negb (truthy_bool (Event.is_published event)) then
        Raise (HTTPException 400 "Cannot order tickets for unpublished events")
      else if truthy_bool (Event.is_canceled event) then
        Raise (HTTPException 400 "Cannot order tickets for canceled events")
      else if Event.available_tickets event <? OrderCreate.quantity order_create then
        Raise (HTTPException 400
                 ("Not enough tickets available. Only "
                  +:+ pretty (Event.available_tickets event) +:+ " left."))
      else Ok event
  end.

(** [process_payment], up to the text of the failure message. *)
Definition process_payment (failure_message : PaymentResult.t -> string)
    (order_id : Z) (payment_data : PaymentProcess.t) (current_user : User.t)
    (now : Z) (uuid_hex : string) (db : DB) : result PaymentResponse.t * DB :=
  match OrderService.get order_id db with
  | Raise e => (Raise e, db)
  | Ok None => (Raise (HTTPException 404 "Order not found"), db)
  | Ok (Some order) =>
      if not_permitted order current_user then
        (Raise (HTTPException 403 "Not enough permissions to process this order"), db)
      else if decide (Order.status order = PAID) then
        (Ok (PaymentResponse.mk (Order.id order) (Order.status order)
               (Order.payment_id order) "Order is already paid"),
         db)
      else if decide (Order.status order = CANCELED) then
        (Raise (HTTPException 400 "Cannot process payment for a canceled order"), db)
      else
        let payment_result :=
          PaymentService.process_payment (Order.total_amount order)
            (PaymentProcess.payment_method payment_data)
            (PaymentProcess.details payment_data) uuid_hex in
        if PaymentResult.success payment_result then
          match OrderService.update_status (Order.id order) PAID
                  (PaymentResult.payment_id payment_result) now db with
          | (Raise e, db') => (Raise e, db')
          | (Ok _, db') =>
              (Ok (PaymentResponse.mk (Order.id order) PAID
                     (PaymentResult.payment_id payment_result) "Payment successful"),
               db')
          end
        else
          (Ok (PaymentResponse.mk (Order.id order) (Order.status order) None
                 (failure_message payment_result)),
           db)
  end.

(** [cancel_order], up to the value returned at the end. The endpoint
    reads [order.event_id] and [order.quantity] after the service call,
    from the object the service changed; the service changes neither. *)
Definition cancel_order {A} (response : Z -> Order.t -> DB -> result A)
    (order_id : Z) (current_user : User.t) (db : DB) : result A * DB :=
  match OrderService.get order_id db with
  | Raise e => (Raise e, db)
  | Ok None => (Raise (HTTPException 404 "Order not found"), db)
  | Ok (Some order) =>
      if not_permitted order current_user then
        (Raise (HTTPException 403 "Not enough permissions to cancel this order"), db)
      else if decide (Order.status order = CANCELED) then
        (Raise (HTTPException 400 "Order is already canceled"), db)
      else
        let refund_id :=
          if decide (Order.status order = PAID) then Some "refund_123" else None in
        match OrderService.cancel_order (Order.id order) refund_id db with
        | (Raise e, db1) => (Raise e, db1)
        | (Ok updated_order, db1) =>
            let '(_, db2) :=
              EventService.increase_available_tickets
                (Order.event_id order) (Order.quantity order) db1 in
            match response order_id updated_order db2 with
            | Ok answer => (Ok answer, db2)
            | Raise e => (Raise e, db2)
            end
        end
  end.

End OrdersCommon.

(** First half of the file (lines 1-337). Its functions are registered on a
    router that line 354 replaces, and those defined again below are
    rebound. *)
Module OrdersApiFirst.

Definition create_order (order_create : OrderCreate.t) (current_user : User.t)
    (db : DB) : result Order.t * DB :=
  match OrdersCommon.create_order_checks order_create db with
  | Raise e => (Raise e, db)
  | Ok event =>
      match OrderService.create (User.id current_user)
              (OrderCreate.event_id order_create) (OrderCreate.quantity order_create)
              (OrderCreate.payment_method order_create) (Event.ticket_price event) db with
      | (Ok order, db') => (Ok order, db')
      | (Raise (ValueError msg), db') => (Raise (HTTPException 400 msg), db')
      | (Raise e, db') => (Raise e, db')
      end
  end.

(** [update_order], the administrator's status update; only this half
    defines it. *)
Definition update_order (order_id : Z) (new_status : option OrderStatus)
    (payment_id : option string) (now : Z) (db : DB)
    : result (option Order.t) * DB :=
  match OrderService.get order_id db with
  | Raise e => (Raise e, db)
  | Ok None => (Raise (HTTPException 404 "Order not found"), db)
  | Ok (Some order) =>
      match new_status with
      | Some st =>
          match OrderService.update_status order_id st payment_id now db with
          | (Raise e, db') => (Raise e, db')
          | (Ok _, db') =>
              (OrderService.get_order_with_event_details order_id db', db')
          end
      | None => (OrderService.get_order_with_event_details order_id db, db)
      end
  end.

Definition process_payment :=
  OrdersCommon.process_payment
    (fun r => "Payment failed: " +:+ default "Unknown error" (PaymentResult.error r)).

Definition cancel_order :=
  OrdersCommon.cancel_order
    (fun order_id _ db => OrderService.get_order_with_event_details order_id db).

End OrdersApiFirst.

(** Second half of the file (lines 339-601): the router [app/main.py]
    mounts, and the functions the names [create_order], [process_payment]
    and [cancel_order] are bound to. *)
Module OrdersApi.

(** No [try]/[except] here: the [ValueError] of [OrderService.create]
    leaves the endpoint as it is. *)
Definition create_order (order_create : OrderCreate.t) (current_user : User.t)
    (db : DB) : result Order.t * DB :=
  match OrdersCommon.create_order_checks order_create db with
  | Raise e => (Raise e, db)
  | Ok event =>
      OrderService.create (User.id current_user)
        (OrderCreate.event_id order_create) (OrderCreate.quantity order_create)
        (OrderCreate.payment_method order_create) (Event.ticket_price event) db
  end.

(** [payment_result['error']]: every failing result of
    [PaymentService.process_payment] carries the key. *)
Definition process_payment :=
  OrdersCommon.process_payment
    (fun r => "Payment failed: " +:+ default "" (PaymentResult.error r)).

Definition cancel_order :=
  OrdersCommon.cancel_order (fun _ updated_order _ => Ok updated_order).

End OrdersApi.

(** ** Background payment task ([app/tasks/payment_tasks.py])

    No endpoint calls it. Its [retry] wrapper runs the method again when it
    raises; the method catches every exception itself, so it runs once. *)
Module PaymentTasks.

(** [str(e)] in the [except Exception as e] clause: the message the
    exception was built with. No [HTTPException] reaches the clause. *)
Definition exn_text (e : exn) : string :=
  match e with
  | ValueError msg => msg
  | TypeError msg => msg
  | AttributeError msg => msg
  | OverflowError msg => msg
  | SQLAlchemyError msg => msg
  | HTTPException _ detail => detail
  end.

Definition process_payment_async (order_id : Z) (amount : float) (payment_method : string)
    (payment_details : PaymentDetails.t) (now : Z) (uuid_hex : string) (db : DB)
    : PaymentResult.t * DB :=
  let payment_result :=
    PaymentService.process_payment amount payment_method payment_details uuid_hex in
  if PaymentResult.success payment_result then
    match OrderService.update_status order_id PAID
            (PaymentResult.payment_id payment_result) now db with
    | (Ok _, db') => (payment_result, db')
    | (Raise e, db') =>
        (PaymentResult.mk false (Some ("Payment processing error: " +:+ exn_text e)) None,
         db')
    end
  else (payment_result, db).

End PaymentTasks.

(** Event endpoints ([app/api/events.py]). [update_event] fetches the event
    and hands it to [EventService.update]; [create_event] is
    [EventService.create] itself. *)
Module EventsApi.

Definition update_event (event_id : Z) (event_update : EventUpdate.t) (db : DB)
    : result Event.t * DB :=
  match EventService.get event_id db with
  | None => (Raise (HTTPException 404 "Event not found"), db)
  | Some event => EventService.update event event_update db
  end.

End EventsApi.

(** ** Commits that fail

    [Session.commit] raises when the database refuses the transaction or
    cannot be reached, and the transaction is rolled back: the store stays
    what the last commit that went through made it. [OrderService.create]
    commits up to three times: the order (line 89), the decrement inside
    [decrease_available_tickets] (line 161), and the compensating delete
    (line 100). Here the outcome of each is an argument; nothing in
    [create] or in the endpoints catches what a commit raises. *)

Module Fallible.

Record commits : Type := mkCommits {
  insert_ok : bool;
  decrement_ok : bool;
  delete_ok : bool
}.

Definition all_ok : commits := mkCommits true true true.

Definition commit_error : exn := SQLAlchemyError "commit failed".

Definition decrease_available_tickets (commit_ok : bool) (event_id quantity : Z)
    (db : DB) : result bool * DB :=
  match EventService.get event_id db with
  | None => (Ok false, db)
  | Some event =>
      if truthy_bool (Event.is_canceled event) then (Ok false, db)
      else if Event.available_tickets event <? quantity then (Ok false, db)
      else if commit_ok then
        (Ok true,
         save_event event_id
           (Event.with_available_tickets event (Event.available_tickets event - quantity))
           db)
      else (Raise commit_error, db)
  end.

Definition create (c : commits) (user_id event_id quantity : Z)
    (payment_method : string) (unit_price : float) (db : DB) : result Order.t * DB :=
  match float_mul_int unit_price quantity with
  | Raise e => (Raise e, db)
  | Ok total_amount =>
      let db_order :=
        Order.mk (next_order_id db) user_id event_id quantity unit_price total_amount
                 PENDING None (Some payment_method) None in
      if negb (insert_ok c) then (Raise commit_error, db)
      else
        let db1 :=
          mkDB (events db) (<[next_order_id db := db_order]> (orders db))
               (next_event_id db) (next_order_id db + 1) in
        match decrease_available_tickets (decrement_ok c) event_id quantity db1 with
        | (Raise e, db2) => (Raise e, db2)
        | (Ok success, db2) =>
            if negb success then
              if delete_ok c then
                (Raise (ValueError
                          "Failed to reserve tickets. Not enough available tickets."),
                 with_orders db2 (delete (Order.id db_order) (orders db2)))
              else (Raise commit_error, db2)
            else (Ok db_order, db2)
        end
  end.

End Fallible.

(** ** Reservations in flight together

    Each request has its own session. [decrease_available_tickets] reads
    the row and checks it (lines 148-154), then subtracts from the object
    it read, and writes and commits it (lines 157-162); nothing locks the
    row between the two, and the UPDATE carries the value computed from
    the read. A request is therefore two steps, and another request can
    move between them. *)

Module Interleaving.

Inductive request : Type :=
| Waiting (quantity : Z)
| Holding (quantity : Z) (event : Event.t)
| Finished (answer : bool).

(** Lines 148-154. *)
Definition read (event_id quantity : Z) (db : DB) : request :=
  match EventService.get event_id db with
  | None => Finished false
  | Some event =>
      if truthy_bool (Event.is_canceled event) then Finished false
      else if Event.available_tickets event <? quantity then Finished false
      else Holding quantity event
  end.

(** Lines 157-162. *)
Definition write (event_id quantity : Z) (event : Event.t) (db : DB) : DB :=
  save_event event_id
    (Event.with_available_tickets event (Event.available_tickets event - quantity)) db.

Definition step (event_id : Z) (r : request) (db : DB) : request * DB :=
  match r with
  | Waiting quantity => (read event_id quantity db, db)
  | Holding quantity event => (Finished true, write event_id quantity event db)
  | Finished answer => (Finished answer, db)
  end.

(** A schedule names, step after step, the request that moves next. *)
Fixpoint run (event_id : Z) (schedule : list nat) (requests : list request) (db : DB)
    : list request * DB :=
  match schedule with
  | [] => (requests, db)
  | i :: rest =>
      match requests !! i with
      | None => run event_id rest requests db
      | Some r =>
          let '(r', db') := step event_id r db in
          run event_id rest (<[i := r']> requests) db'
      end
  end.

(** The requests that were answered [True]. *)
Definition succeeded (requests : list request) : list bool :=
  map (fun r => match r with Finished true => true | _ => false end) requests.

End Interleaving.

(** ** Vocabulary of the properties *)

(** The inventory bound of one event. *)
Definition event_inv (e : Event.t) : Prop :=
  0 <= Event.available_tickets e <= Event.total_capacity e.

(** Every stored event is within its bound. *)
Definition inventory_inv (db : DB) : Prop :=
  forall id e, events db !! id = Some e -> event_inv e.

(** Every stored order holds a non-negative quantity. *)
Definition quantities_inv (db : DB) : Prop :=
  forall id o, orders db !! id = Some o -> 0 <= Order.quantity o.

(** The operations that write inventory. *)
Inductive core_op : Type :=
| CreateEvent (event_create : EventCreate.t)
| Reserve (event_id quantity : Z)
| Release (event_id quantity : Z)
| UpdateEvent (event_id : Z) (event_update : EventUpdate.t)
| CreateOrder (user_id event_id quantity : Z) (payment_method : string)
              (unit_price : float)
| PlaceOrder (order_create : OrderCreate.t) (current_user : User.t)
| CancelOrder (order_id : Z) (current_user : User.t).

(** The store an operation leaves behind, whatever it returned. *)
Definition run_op (op : core_op) (db : DB) : DB :=
  match op with
  | CreateEvent ec => snd (EventService.create ec db)
  | Reserve i q => snd (EventService.decrease_available_tickets i q db)
  | Release i q => snd (EventService.increase_available_tickets i q db)
  | UpdateEvent i eu => snd (EventsApi.update_event i eu db)
  | CreateOrder u i q pm price => snd (OrderService.create u i q pm price db)
  | PlaceOrder oc u => snd (OrdersApi.create_order oc u db)
  | CancelOrder i u => snd (OrdersApi.cancel_order i u db)
  end.

(** What the request schemas leave of an operation's numbers: a capacity or
    a quantity that is not negative ([EventBase] and [OrderBase] ask for
    positive ones). *)
Definition op_admissible (op : core_op) : Prop :=
  match op with
  | CreateEvent ec => 0 <= EventCreate.total_capacity ec
  | Reserve _ q => 0 <= q
  | Release _ q => 0 <= q
  | UpdateEvent _ _ => True
  | CreateOrder _ _ q _ _ => 0 <= q
  | PlaceOrder oc _ => 0 <= OrderCreate.quantity oc
  | CancelOrder _ _ => True
  end.

(** Reservations on one event served one after the other: the outcome of
    each call and the store after the last. *)
Fixpoint reserve_all (event_id : Z) (quantities : list Z) (db : DB) : list bool * DB :=
  match quantities with
  | [] => ([], db)
  | q :: rest =>
      let '(ok, db1) := EventService.decrease_available_tickets event_id q db in
      let '(oks, db2) := reserve_all event_id rest db1 in
      (ok :: oks, db2)
  end.

(** The tickets handed out by such a run. *)
Fixpoint granted (quantities : list Z) (oks : list bool) : Z :=
  match quantities, oks with
  | q :: rest, ok :: oks' => (if ok then q else 0) + granted rest oks'
  | _, _ => 0
  end.

(** The next order key is not in use. *)
Definition order_key_fresh (db : DB) : Prop :=
  orders db !! next_order_id db = None.

(** The conditions under which a reservation of [quantity] tickets is
    refused: no such event, a canceled one, or too few tickets left. *)
Definition reservation_refused (event_id quantity : Z) (db : DB) : Prop :=
  events db !! event_id = None
  \/ exists e, events db !! event_id = Some e
               /\ (Event.is_canceled e = Some true
                   \/ Event.available_tickets e < quantity).

(** Two event rows that agree on every column but [available_tickets]. *)
Definition same_event_but_available (e e' : Event.t) : Prop :=
  Event.id e' = Event.id e
  /\ Event.total_capacity e' = Event.total_capacity e
  /\ Event.ticket_price e' = Event.ticket_price e
  /\ Event.is_published e' = Event.is_published e
  /\ Event.is_canceled e' = Event.is_canceled e.

(** Two stores that agree on everything but the event row [event_id]. *)
Definition same_store_but_event (event_id : Z) (db db' : DB) : Prop :=
  (forall k, k <> event_id -> events db' !! k = events db !! k)
  /\ orders db' = orders db
  /\ next_event_id db' = next_event_id db
  /\ next_order_id db' = next_order_id db.

(** A request is in order when the row it holds has the tickets it asked
    for. *)
Definition request_ok (r : Interleaving.request) : Prop :=
  match r with
  | Interleaving.Holding quantity event => quantity <= Event.available_tickets event
  | _ => True
  end.

(** What [AttributeError] the calls of [OrderService.get] end in. *)
Definition missing_get : exn :=
  AttributeError "'OrderService' object has no attribute 'get'".

(** Sample data. *)
Definition sample_event (total available : Z) : Event.t :=
  Event.mk 1 total available 100 (Some true) (Some false).

Definition sample_db (total available : Z) : DB :=
  mkDB {[ 1 := sample_event total available ]} ∅ 2 1.

Definition sample_order (st : OrderStatus) (payment_id : option string) : Order.t :=
  Order.mk 1 7 1 3 100 300 st payment_id (Some "credit_card") None.

Definition sample_db_with_order (st : OrderStatus) (payment_id : option string) : DB :=
  mkDB {[ 1 := sample_event 10 7 ]} {[ 1 := sample_order st payment_id ]} 2 2.

Definition alice : User.t := User.mk 7 "alice@example.org" true false.
Definition mallory : User.t := User.mk 8 "mallory@example.org" true false.

(** A well-formed card that expired in January 2020. *)
Definition expired_card : PaymentProcess.t :=
  PaymentProcess.mk 1 "credit_card" (Some "4242 4242 4242 4242")
                    (Some 1) (Some 2020) (Some "123").

(** What the card rules of the specification ask of the details, the
    current date apart: the four fields present, 13 to 19 digits once
    spaces and dashes are removed, a month from 1 to 12, a cvc of 3 or 4
    digits. *)
Definition card_well_formed (d : PaymentDetails.t) : Prop :=
  exists number month year cvc,
    PaymentDetails.card_number d = Some number
    /\ PaymentDetails.card_exp_month d = Some month
    /\ PaymentDetails.card_exp_year d = Some year
    /\ PaymentDetails.card_cvc d = Some cvc
    /\ number <> "" /\ month <> 0 /\ year <> 0 /\ cvc <> ""
    /\ isdigit (remove_char "-" (remove_char " " number)) = true
    /\ 13 <= len (remove_char "-" (remove_char " " number)) <= 19
    /\ 1 <= month <= 12
    /\ isdigit cvc = true
    /\ 3 <= len cvc <= 4.

(** The expiry rule: the card's year and month are not before the current
    ones. *)
Definition not_expired (d : PaymentDetails.t) (current_year current_month : Z) : Prop :=
  exists month year,
    PaymentDetails.card_exp_month d = Some month
    /\ PaymentDetails.card_exp_year d = Some year
    /\ (current_year < year \/ (year = current_year /\ current_month <= month)).

(** ** [EventService], remaining methods: [has_orders] and [delete] *)

Module EventServiceRest.

Definition has_orders (event_id : Z) (db : DB) : bool :=
  bool_decide (map_Exists (fun _ o => Order.event_id o = event_id) (orders db)).

(** [db.delete(event)]: the relationship [Event.orders] is declared with
    [cascade="all, delete-orphan"] ([models/event.py]), so the session
    deletes the event's orders with it. *)
Definition delete (id : Z) (db : DB) : DB :=
  match EventService.get id db with
  | None => db
  | Some _ =>
      mkDB (base.delete id (events db))
           (filter (fun ko => Order.event_id ko.2 <> id) (orders db))
           (next_event_id db) (next_order_id db)
  end.

End EventServiceRest.

(** ** Event endpoints, remaining ([app/api/events.py]) *)

Module EventsApiRest.

Definition delete_event (event_id : Z) (db : DB) : result unit * DB :=
  match EventService.get event_id db with
  | None => (Raise (HTTPException 404 "Event not found"), db)
  | Some _ =>
      if EventServiceRest.has_orders event_id db then
        (Raise (HTTPException 400
                  "Cannot delete an event with existing orders. Consider canceling it instead."),
         db)
      else (Ok tt, EventServiceRest.delete event_id db)
  end.

Definition publish_event (event_id : Z) (db : DB) : result Event.t * DB :=
  match EventService.get event_id db with
  | None => (Raise (HTTPException 404 "Event not found"), db)
  | Some event =>
      if truthy_bool (Event.is_published event) then
        (Raise (HTTPException 400 "Event is already published"), db)
      else EventService.update event (EventUpdate.mk Unset (Val true) Unset) db
  end.

Definition cancel_event (event_id : Z) (db : DB) : result Event.t * DB :=
  match EventService.get event_id db with
  | None => (Raise (HTTPException 404 "Event not found"), db)
  | Some event =>
      if truthy_bool (Event.is_canceled event) then
        (Raise (HTTPException 400 "Event is already canceled"), db)
      else EventService.update event (EventUpdate.mk Unset Unset (Val true)) db
  end.

End EventsApiRest.

(** ** [read_order] ([app/api/orders.py], lines 103-128 and 421-446) *)

Module ReadOrder.

Definition checked (order_id : Z) (current_user : User.t) (db : DB) : result Order.t :=
  match OrderService.get order_id db with
  | Raise e => Raise e
  | Ok None => Raise (HTTPException 404 "Order not found")
  | Ok (Some order) =>
      if not_permitted order current_user then
        Raise (HTTPException 403 "Not enough permissions to access this order")
      else Ok order
  end.

(** First half: the answer is [get_order_with_event_details]. *)
Definition read_order_first (order_id : Z) (current_user : User.t) (db : DB)
    : result (option Order.t) :=
  match checked order_id current_user db with
  | Raise e => Raise e
  | Ok _ => OrderService.get_order_with_event_details order_id db
  end.

(** Second half: the answer is the order. *)
Definition read_order (order_id : Z) (current_user : User.t) (db : DB)
    : result Order.t :=
  checked order_id current_user db.

End ReadOrder.

(** ** Further vocabulary *)

(** Primary keys in use lie below the next key of their table. *)
Definition keys_fresh (db : DB) : Prop :=
  (forall k e, events db !! k = Some e -> k < next_event_id db)
  /\ (forall k o, orders db !! k = Some o -> k < next_order_id db).

(** Every order refers to a stored event. *)
Definition orders_have_events (db : DB) : Prop :=
  forall k o, orders db !! k = Some o -> is_Some (events db !! Order.event_id o).

(** An order that holds tickets: PENDING or PAID. *)
Definition holds_tickets (o : Order.t) : bool :=
  match Order.status o with
  | PENDING | PAID => true
  | CANCELED | REFUNDED => false
  end.

(** The tickets of [event_id] held by orders. *)
Definition held (event_id : Z) (m : gmap Z Order.t) : Z :=
  map_fold
    (fun _ o acc =>
       if holds_tickets o && (Order.event_id o =? event_id) then Order.quantity o + acc
       else acc)
    0 m.

(** The [id] column of every row is the key it is stored under. *)
Definition ids_consistent (db : DB) : Prop :=
  (forall k e, events db !! k = Some e -> Event.id e = k)
  /\ (forall k o, orders db !! k = Some o -> Order.id o = k).

(** A well-formed store. *)
Definition db_wf (db : DB) : Prop := keys_fresh db /\ ids_consistent db.

(** What one order holds of [event_id]. *)
Definition held_by (event_id : Z) (o : Order.t) : Z :=
  if holds_tickets o && (Order.event_id o =? event_id) then Order.quantity o else 0.

(** ** [retry] ([app/tasks/payment_tasks.py] and [app/tasks/email_tasks.py])

    The decorated function is seen through its calls: [func n] is what its
    [n]-th call (from 0) returns or raises. [catches e] says whether [e] is
    an instance of the [exceptions] tuple. [sleep] is [time.sleep], seen
    through what it does with a delay: it returns, or it raises (as it
    does for a negative delay); it is called inside the [except] clause,
    so what it raises leaves the wrapper. A run records the outcome, the
    number of calls made and the delays slept through, oldest first. *)

Module Retry.

Record run (A : Type) : Type := mkRun {
  outcome : result A;
  calls : nat;
  sleeps : list float
}.
Arguments mkRun {A} _ _ _.
Arguments outcome {A} _.
Arguments calls {A} _.
Arguments sleeps {A} _.

(** The [while mtries > 1] loop with [retries = mtries - 1] rounds left,
    then the final [return func(...)] after it. *)
Fixpoint loop {A} (func : nat -> result A) (catches : exn -> bool)
    (sleep : float -> result unit) (backoff : float)
    (retries : nat) (call : nat) (mdelay : float) (slept : list float) : run A :=
  match retries with
  | O => mkRun (func call) (S call) slept
  | S n =>
      match func call with
      | Ok v => mkRun (Ok v) (S call) slept
      | Raise e =>
          if catches e then
            match sleep mdelay with
            | Raise e' => mkRun (Raise e') (S call) slept
            | Ok _ =>
                loop func catches sleep backoff n (S call)
                     (PrimFloat.mul mdelay backoff) (slept ++ [mdelay])
            end
          else mkRun (Raise e) (S call) slept
      end
  end.

Definition wrapper {A} (max_attempts : Z) (delay backoff : float)
    (catches : exn -> bool) (sleep : float -> result unit)
    (func : nat -> result A) : run A :=
  loop func catches sleep backoff (Z.to_nat (max_attempts - 1)) 0 delay [].

(** The delay before call [n + 1]: [delay] multiplied [n] times by
    [backoff]. *)
Fixpoint delay_at (delay backoff : float) (n : nat) : float :=
  match n with
  | O => delay
  | S k => delay_at (PrimFloat.mul delay backoff) backoff k
  end.

(** A call that raises something the wrapper catches. *)
Definition caught {A} (catches : exn -> bool) (r : result A) : bool :=
  match r with
  | Ok _ => false
  | Raise e => catches e
  end.

(** A sample [sleep]: it refuses a negative delay with the [ValueError] of
    [time.sleep], and returns for every other one. ([time.sleep] also
    refuses a delay that is not a number or is too long for the clock;
    the wrapper is defined for any [sleep].) *)
Definition sleep_nonnegative (secs : float) : result unit :=
  if PrimFloat.ltb secs 0 then Raise (ValueError "sleep length must be non-negative")
  else Ok tt.

End Retry.

(** ** Batch notifications ([app/services/notification_service.py],
    [send_event_cancellation_notification]; the same loop is in
    [EmailTasks.send_event_reminder_emails])

    [send email] is the call made for one address: it returns a boolean or
    raises. *)

Module NotificationService.

Record results : Type := mkResults {
  total : Z;
  successful : Z;
  failed : Z;
  failed_emails : list string
}.

Definition step (send : string -> result bool) (r : results) (email : string) : results :=
  match send email with
  | Ok true => mkResults (total r) (successful r + 1) (failed r) (failed_emails r)
  | Ok false | Raise _ =>
      mkResults (total r) (successful r) (failed r + 1) (failed_emails r ++ [email])
  end.

Definition send_batch (send : string -> result bool) (user_emails : list string)
    : results :=
  fold_left (step send) user_emails
            (mkResults (Z.of_nat (length user_emails)) 0 0 []).

(** [send_email] of the class: it logs and returns [True]. *)
Definition send_email (to_email : string) : result bool := Ok true.

Definition send_event_cancellation_notification (user_emails : list string) : results :=
  send_batch send_email user_emails.

End NotificationService.

(** ** [TicketService] ([app/services/ticket_service.py])

    A ticket is an order. The [users] table is an argument; [status_text] is
    the text of [order.status] in the f-string of the message. *)

Module TicketService.

(** The fields of the answer of [verify_ticket] for a valid ticket (event
    title, date and location and the user's name are left out). *)
Record ticket : Type := mkTicket {
  order_id : Z;
  event_id : Z;
  user_id : Z;
  user_email : string;
  quantity : Z;
  payment_status : OrderStatus;
  paid_at : option Z
}.

(** The answer dict: ["valid": False] with a message, or ["valid": True]
    with the ticket. *)
Inductive verification : Type :=
| Invalid (message : string)
| Valid (t : ticket).

Definition verify_ticket (status_text : OrderStatus -> string) (users : gmap Z User.t)
    (order_id : Z) (db : DB) : result verification :=
  match OrderService.get order_id db with
  | Raise e => Raise e
  | Ok None => Ok (Invalid "Ticket not found")
  | Ok (Some order) =>
      if negb (bool_decide (Order.status order = PAID)) then
        Ok (Invalid ("Ticket is not valid. Order status: "
                     +:+ status_text (Order.status order)))
      else
        match EventService.get (Order.event_id order) db with
        | None => Ok (Invalid "Event not found")
        | Some event =>
            if truthy_bool (Event.is_canceled event) then Ok (Invalid "Event is canceled")
            else
              match users !! Order.user_id order with
              | None => Ok (Invalid "User not found")
              | Some user =>
                  Ok (Valid (mkTicket (Order.id order) (Event.id event) (User.id user)
                                      (User.email user) (Order.quantity order)
                                      (Order.status order) (Order.paid_at order)))
              end
        end
  end.

(** The answer dict of [check_in_ticket]: ["success": False] with the
    message of the verification, or ["success": True] with the order id. *)
Inductive check_in : Type :=
| CheckInRefused (message : string)
| CheckedIn (order_id : Z).

Definition check_in_ticket (status_text : OrderStatus -> string) (users : gmap Z User.t)
    (order_id : Z) (db : DB) : result check_in :=
  match verify_ticket status_text users order_id db with
  | Raise e => Raise e
  | Ok (Invalid message) => Ok (CheckInRefused message)
  | Ok (Valid _) => Ok (CheckedIn order_id)
  end.

End TicketService.

(** * Properties *)

(** ** Inventory ledger *)

Example reserve_round_trip :
  EventService.decrease_available_tickets 1 3 (sample_db 10 10) = (true, sample_db 10 7).
Proof. vm_compute. reflexivity. Qed.

Lemma with_available_tickets_get (e : Event.t) (v : Z) :
  Event.available_tickets (Event.with_available_tickets e v) = v
  /\ Event.total_capacity (Event.with_available_tickets e v) = Event.total_capacity e
  /\ Event.is_canceled (Event.with_available_tickets e v) = Event.is_canceled e.
Proof. destruct e; repeat split. Qed.

Lemma with_available_tickets_same (e : Event.t) (v : Z) :
  same_event_but_available e (Event.with_available_tickets e v).
Proof. destruct e; repeat split. Qed.

Lemma save_event_same_store (k : Z) (e : Event.t) (db : DB) :
  same_store_but_event k db (save_event k e db).
Proof.
  unfold same_store_but_event, save_event, with_events. simpl.
  split; [|repeat split]. intros j Hj. rewrite lookup_insert_ne by congruence.
  reflexivity.
Qed.

(** C4. [decrease_available_tickets] (reserve) returns [False] and leaves
    the store as it was when the event is missing, is canceled, or has
    fewer than [quantity] tickets available. In every other case it returns
    [True], and in the store it leaves the row of the event has
    [available_tickets] lower by exactly [quantity] and every other column
    as before, every other event row is as before, and so are the orders
    and the next keys. *)
Theorem decrease_available_tickets_spec (event_id quantity : Z) (db : DB) :
  ((events db !! event_id = None
    \/ exists e, events db !! event_id = Some e
                 /\ (Event.is_canceled e = Some true
                     \/ Event.available_tickets e < quantity))
   -> EventService.decrease_available_tickets event_id quantity db = (false, db))
  /\ (forall e,
        events db !! event_id = Some e ->
        Event.is_canceled e <> Some true ->
        quantity <= Event.available_tickets e ->
        exists e' db',
          EventService.decrease_available_tickets event_id quantity db = (true, db')
          /\ events db' !! event_id = Some e'
          /\ Event.available_tickets e' = Event.available_tickets e - quantity
          /\ same_event_but_available e e'
          /\ same_store_but_event event_id db db').
Proof.
  unfold EventService.decrease_available_tickets, EventService.get. split.
  - intros [Hnone | (e & Hget & Hbad)].
    + now rewrite Hnone.
    + rewrite Hget. destruct Hbad as [Hc | Hlt].
      * now rewrite Hc.
      * destruct (truthy_bool (Event.is_canceled e)); [reflexivity|].
        apply Z.ltb_lt in Hlt. now rewrite Hlt.
  - intros e Hget Hc Hle. rewrite Hget.
    assert (truthy_bool (Event.is_canceled e) = false) as ->.
    { destruct (Event.is_canceled e) as [[|]|]; simpl; congruence. }
    apply Z.ltb_ge in Hle. rewrite Hle.
    eexists. eexists. split; [reflexivity|].
    split; [apply lookup_insert_eq|].
    split; [destruct e; reflexivity|].
    split; [apply with_available_tickets_same | apply save_event_same_store].
Qed.

(** C5. On an existing event, [increase_available_tickets] (release)
    returns [True], for every [quantity], and in the store it leaves the
    row of the event has [min(available_tickets + quantity,
    total_capacity)] as [available_tickets] and every other column as
    before, every other event row is as before, and so are the orders and
    the next keys. It returns [False] exactly when the event does not
    exist, and then the store is left as it was. *)
Theorem increase_available_tickets_spec (event_id quantity : Z) (db : DB) :
  (forall e,
     events db !! event_id = Some e ->
     exists e' db',
       EventService.increase_available_tickets event_id quantity db = (true, db')
       /\ events db' !! event_id = Some e'
       /\ Event.available_tickets e'
          = Z.min (Event.available_tickets e + quantity) (Event.total_capacity e)
       /\ same_event_but_available e e'
       /\ same_store_but_event event_id db db')
  /\ (fst (EventService.increase_available_tickets event_id quantity db) = false
      <-> events db !! event_id = None)
  /\ (events db !! event_id = None ->
      EventService.increase_available_tickets event_id quantity db = (false, db)).
Proof.
  unfold EventService.increase_available_tickets, EventService.get.
  destruct (events db !! event_id) as [e|] eqn:Hget.
  - split; [|split].
    + intros e0 He0. simplify_eq.
      eexists. eexists. split; [reflexivity|].
      split; [apply lookup_insert_eq|].
      split; [destruct e0; reflexivity|].
      split; [apply with_available_tickets_same | apply save_event_same_store].
    + simpl. split; discriminate.
    + discriminate.
  - split; [|split].
    + intros e0 He0. discriminate.
    + simpl. split; reflexivity.
    + reflexivity.
Qed.



Example resize_sample :
  EventService.update (sample_event 100 90)
    (EventUpdate.mk (Val 50) Unset Unset) (sample_db 100 90)
  = (Ok (sample_event 50 40), sample_db 50 40).
Proof. vm_compute. reflexivity. Qed.

(** ** The inventory bound under the core operations *)

Lemma inventory_inv_save (k : Z) (e : Event.t) (db : DB) :
  inventory_inv db -> event_inv e -> inventory_inv (save_event k e db).
Proof.
  intros Hdb He j e' Hj. unfold save_event, with_events in Hj. simpl in Hj.
  destruct (decide (k = j)) as [->|Hne].
  - rewrite lookup_insert_eq in Hj. now simplify_eq.
  - rewrite lookup_insert_ne in Hj by done. eauto.
Qed.

Lemma quantities_inv_insert (k : Z) (o : Order.t) (m : gmap Z Order.t) :
  (forall id o', m !! id = Some o' -> 0 <= Order.quantity o') ->
  0 <= Order.quantity o ->
  forall id o', <[k := o]> m !! id = Some o' -> 0 <= Order.quantity o'.
Proof.
  intros Hm Ho j o' Hj.
  destruct (decide (k = j)) as [->|Hne].
  - rewrite lookup_insert_eq in Hj. now simplify_eq.
  - rewrite lookup_insert_ne in Hj by done. eauto.
Qed.

Lemma decrease_orders (i q : Z) (db : DB) :
  orders (snd (EventService.decrease_available_tickets i q db)) = orders db.
Proof.
  unfold EventService.decrease_available_tickets.
  repeat case_match; reflexivity.
Qed.

Lemma increase_orders (i q : Z) (db : DB) :
  orders (snd (EventService.increase_available_tickets i q db)) = orders db.
Proof.
  unfold EventService.increase_available_tickets.
  repeat case_match; reflexivity.
Qed.

Lemma decrease_inventory_inv (i q : Z) (db : DB) :
  0 <= q -> inventory_inv db ->
  inventory_inv (snd (EventService.decrease_available_tickets i q db)).
Proof.
  intros Hq Hdb. unfold EventService.decrease_available_tickets, EventService.get.
  destruct (events db !! i) as [e|] eqn:Hget; [|exact Hdb].
  destruct (truthy_bool (Event.is_canceled e)); [exact Hdb|].
  destruct (Z.ltb_spec (Event.available_tickets e) q); [exact Hdb|].
  apply inventory_inv_save; [exact Hdb|].
  specialize (Hdb i e Hget). unfold event_inv in *. destruct e; simpl in *. lia.
Qed.

Lemma increase_inventory_inv (i q : Z) (db : DB) :
  0 <= q -> inventory_inv db ->
  inventory_inv (snd (EventService.increase_available_tickets i q db)).
Proof.
  intros Hq Hdb. unfold EventService.increase_available_tickets, EventService.get.
  destruct (events db !! i) as [e|] eqn:Hget; [|exact Hdb].
  apply inventory_inv_save; [exact Hdb|].
  specialize (Hdb i e Hget). unfold event_inv in *. destruct e; simpl in *. lia.
Qed.

(** [EventService.update] keeps an event within its bound, whatever the
    new capacity. *)
Lemma update_event_inv (event : Event.t) (eu : EventUpdate.t) (db : DB) :
  inventory_inv db -> event_inv event ->
  inventory_inv (snd (EventService.update event eu db)).
Proof.
  intros Hdb He. unfold EventService.update.
  destruct (EventUpdate.total_capacity eu) as [| |new_total]; simpl.
  - apply inventory_inv_save; [exact Hdb|]. unfold event_inv in *. simpl. exact He.
  - exact Hdb.
  - destruct (Z.ltb_spec
                (Event.available_tickets event + (new_total - Event.total_capacity event)) 0).
    + destruct (Z.gtb_spec
                  (Event.total_capacity event - Event.available_tickets event) new_total);
        [exact Hdb | lia].
    + apply inventory_inv_save; [exact Hdb|]. unfold event_inv in *. simpl. lia.
Qed.

Lemma create_order_invs (u i q : Z) (pm : string) (price : float) (db : DB) :
  0 <= q -> inventory_inv db -> quantities_inv db ->
  inventory_inv (snd (OrderService.create u i q pm price db))
  /\ quantities_inv (snd (OrderService.create u i q pm price db)).
Proof.
  intros Hq Hdb Hqs. unfold OrderService.create.
  destruct (float_mul_int price q) as [total|e]; [|split; assumption].
  set (db_order := Order.mk _ _ _ _ _ _ _ _ _ _).
  set (db1 := mkDB _ _ _ _).
  assert (Hinv1 : inventory_inv db1) by exact Hdb.
  pose proof (decrease_inventory_inv i q db1 Hq Hinv1) as Hinv2.
  pose proof (decrease_orders i q db1) as Hord2.
  destruct (EventService.decrease_available_tickets i q db1) as [success db2].
  simpl in Hinv2, Hord2.
  assert (Hqs2 : quantities_inv db2).
  { unfold quantities_inv. rewrite Hord2. subst db1. simpl.
    apply quantities_inv_insert; [exact Hqs | exact Hq]. }
  destruct success; simpl; split; auto.
  intros j o Hj. simpl in Hj.
  apply lookup_delete_Some in Hj as [_ Hj]. eauto.
Qed.

(** Every path of the cancel endpoint starts with [OrderService.get], so
    it ends there, with the store it was given. *)
Lemma cancel_order_store {A} (response : Z -> Order.t -> DB -> result A)
    (i : Z) (u : User.t) (db : DB) :
  OrdersCommon.cancel_order response i u db = (Raise missing_get, db).
Proof. reflexivity. Qed.

(** C1, as amended. Every core operation (event creation, reservation by
    [decrease_available_tickets], release by [increase_available_tickets],
    capacity change by [EventService.update], order creation, order
    cancellation) keeps every event within [0 <= available_tickets <=
    total_capacity], provided the events were within the bound before, the
    stored orders hold non-negative quantities, and the quantity or the
    new event's capacity the operation is given is not negative. *)
Theorem core_op_preserves_inventory (op : core_op) (db : DB) :
  op_admissible op ->
  inventory_inv db ->
  quantities_inv db ->
  inventory_inv (run_op op db) /\ quantities_inv (run_op op db).
Proof.
  intros Hop Hdb Hqs. destruct op; simpl in *.
  - split; [|exact Hqs].
    intros j e Hj. simpl in Hj.
    destruct (decide (j = next_event_id db)) as [->|Hne].
    + rewrite lookup_insert_eq in Hj. simplify_eq. unfold event_inv. simpl. lia.
    + rewrite lookup_insert_ne in Hj by done. eauto.
  - split; [now apply decrease_inventory_inv|].
    unfold quantities_inv. now rewrite decrease_orders.
  - split; [now apply increase_inventory_inv|].
    unfold quantities_inv. now rewrite increase_orders.
  - unfold EventsApi.update_event, EventService.get.
    destruct (events db !! event_id) as [e|] eqn:Hget; [|auto].
    split; [apply update_event_inv; eauto|].
    unfold EventService.update. repeat case_match; exact Hqs.
  - now apply create_order_invs.
  - unfold OrdersApi.create_order.
    destruct (OrdersCommon.create_order_checks order_create db); [|auto].
    now apply create_order_invs.
  - split; assumption.
Qed.

(** Requests that pass the pydantic validators are admissible. *)
Lemma schema_valid_admissible (op : core_op) :
  match op with
  | CreateEvent ec => EventCreate.valid ec
  | PlaceOrder oc _ => OrderCreate.valid oc
  | UpdateEvent _ eu => EventUpdate.valid eu
  | Reserve _ q | Release _ q | CreateOrder _ _ q _ _ => 0 < q
  | CancelOrder _ _ => True
  end ->
  op_admissible op.
Proof.
  destruct op; simpl; unfold EventCreate.valid, OrderCreate.valid; intros; lia || tauto.
Qed.

Lemma sample_db_inventory_inv (total available : Z) :
  0 <= available <= total -> inventory_inv (sample_db total available).
Proof.
  intros H id e Hid. unfold sample_db in Hid. simpl in Hid.
  apply lookup_singleton_Some in Hid as [_ <-]. exact H.
Qed.

(** An order request for 2 tickets on an event with 7 of 10 left, next to
    an order of 3: the bound holds afterwards (5 are left). *)
Lemma core_op_preserves_inventory_witness :
  inventory_inv (run_op (PlaceOrder (OrderCreate.mk 1 2 "credit_card") alice)
                   (sample_db_with_order PENDING None))
  /\ quantities_inv (run_op (PlaceOrder (OrderCreate.mk 1 2 "credit_card") alice)
                       (sample_db_with_order PENDING None)).
Proof.
  apply core_op_preserves_inventory.
  - simpl. lia.
  - intros id e Hid. simpl in Hid.
    apply lookup_singleton_Some in Hid as [_ <-]. unfold event_inv. simpl. lia.
  - intros id o Hid. simpl in Hid.
    apply lookup_singleton_Some in Hid as [_ <-]. simpl. lia.
Defined.

Example place_order_sample :
  (Event.available_tickets
     <$> events (run_op (PlaceOrder (OrderCreate.mk 1 2 "credit_card") alice)
                   (sample_db_with_order PENDING None)) !! 1) = Some 5.
Proof. vm_compute. reflexivity. Qed.

(** C1, as stated, fails: [decrease_available_tickets] accepts any integer,
    and a reservation of [-3] tickets on an event with 5 of 5 available
    stores 8 available tickets against a capacity of 5. *)
Lemma core_op_inventory_counterexample :
  inventory_inv (sample_db 5 5)
  /\ EventService.decrease_available_tickets 1 (-3) (sample_db 5 5)
     = (true, sample_db 5 8)
  /\ ~ inventory_inv (run_op (Reserve 1 (-3)) (sample_db 5 5)).
Proof.
  split; [apply sample_db_inventory_inv; lia|].
  split; [vm_compute; reflexivity|].
  intros H. specialize (H 1 (sample_event 5 8)).
  unfold event_inv in H. simpl in H.
  assert (Hl : events (run_op (Reserve 1 (-3)) (sample_db 5 5)) !! 1
               = Some (sample_event 5 8)) by (vm_compute; reflexivity).
  specialize (H Hl). lia.
Qed.

(** X3. Served one after the other, reservations of non-negative quantities
    hand out no more than what was available: the event ends with what it
    had minus the tickets granted, and that is not negative. *)
Lemma reserve_all_conserves (event_id : Z) (quantities : list Z) :
  Forall (fun q => 0 <= q) quantities ->
  forall (db : DB) (e : Event.t),
    events db !! event_id = Some e ->
    0 <= Event.available_tickets e ->
    exists e',
      events (snd (reserve_all event_id quantities db)) !! event_id = Some e'
      /\ Event.available_tickets e'
         = Event.available_tickets e
           - granted quantities (fst (reserve_all event_id quantities db))
      /\ 0 <= Event.available_tickets e'
      /\ length (fst (reserve_all event_id quantities db)) = length quantities.
Proof.
  induction 1 as [|q rest Hq Hrest IH]; intros db e Hget Havail.
  - exists e. simpl. repeat split; [exact Hget | lia | exact Havail].
  - simpl.
    destruct (EventService.decrease_available_tickets event_id q db)
      as [ok db1] eqn:Hdec.
    assert (Hstep : exists e1,
               events db1 !! event_id = Some e1
               /\ Event.available_tickets e1
                  = Event.available_tickets e - (if ok then q else 0)
               /\ 0 <= Event.available_tickets e1).
    { unfold EventService.decrease_available_tickets, EventService.get in Hdec.
      rewrite Hget in Hdec.
      destruct (truthy_bool (Event.is_canceled e));
        [|destruct (Z.ltb_spec (Event.available_tickets e) q)];
        simplify_eq; try (exists e; repeat split; [exact Hget | lia | exact Havail]).
      eexists. split; [apply lookup_insert_eq|].
      destruct e; simpl in *. split; lia. }
    destruct Hstep as (e1 & Hget1 & Hsum1 & Hpos1).
    destruct (IH db1 e1 Hget1 Hpos1) as (e' & He' & Hsum & Hpos & Hlen).
    destruct (reserve_all event_id rest db1) as [oks db2]. simpl in *.
    exists e'. repeat split; [exact He' | lia | exact Hpos | lia].
Qed.

(** ** Order creation *)

Lemma decrease_succeeds (i q : Z) (e : Event.t) (db : DB) :
  events db !! i = Some e ->
  truthy_bool (Event.is_canceled e) = false ->
  q <= Event.available_tickets e ->
  EventService.decrease_available_tickets i q db
  = (true,
     save_event i (Event.with_available_tickets e (Event.available_tickets e - q)) db).
Proof.
  intros Hget Hc Hle. unfold EventService.decrease_available_tickets, EventService.get.
  rewrite Hget, Hc. apply Z.ltb_ge in Hle. now rewrite Hle.
Qed.

(** The reservation reads and writes the [events] table only. *)
Lemma decrease_frame (i q : Z) (db : DB) (m : gmap Z Order.t) (nid : Z) :
  EventService.decrease_available_tickets i q
    (mkDB (events db) m (next_event_id db) nid)
  = (fst (EventService.decrease_available_tickets i q db),
     mkDB (events (snd (EventService.decrease_available_tickets i q db))) m
          (next_event_id db) nid).
Proof.
  unfold EventService.decrease_available_tickets, EventService.get. simpl.
  repeat case_match; reflexivity.
Qed.

(** ** Order creation *)

(** The only exception of the product is the overflow of the conversion. *)
Lemma float_mul_int_raises (x : float) (n : Z) (e : exn) :
  float_mul_int x n = Raise e ->
  e = OverflowError "int too large to convert to float".
Proof.
  unfold float_mul_int, float_of_int.
  destruct (PrimFloat.is_infinity _); congruence.
Qed.

Lemma fallible_decrease_ok (i q : Z) (db : DB) :
  Fallible.decrease_available_tickets true i q db
  = (Ok (fst (EventService.decrease_available_tickets i q db)),
     snd (EventService.decrease_available_tickets i q db)).
Proof.
  unfold Fallible.decrease_available_tickets, EventService.decrease_available_tickets.
  repeat case_match; reflexivity.
Qed.

(** With every commit going through, [Fallible.create] is
    [OrderService.create]. *)
Lemma fallible_create_all_ok (u i q : Z) (pm : string) (price : float) (db : DB) :
  Fallible.create Fallible.all_ok u i q pm price db = OrderService.create u i q pm price db.
Proof.
  unfold Fallible.create, OrderService.create.
  destruct (float_mul_int price q) as [total|e]; [|reflexivity]. simpl.
  rewrite fallible_decrease_ok.
  destruct (EventService.decrease_available_tickets i q _) as [[|] db2]; reflexivity.
Qed.

Lemma fallible_decrease_refused (ok : bool) (i q : Z) (db : DB) :
  reservation_refused i q db ->
  Fallible.decrease_available_tickets ok i q db = (Ok false, db).
Proof.
  unfold Fallible.decrease_available_tickets, EventService.get.
  intros [Hnone | (e & Hget & Hbad)].
  - now rewrite Hnone.
  - rewrite Hget. destruct Hbad as [Hc | Hlt].
    + now rewrite Hc.
    + destruct (truthy_bool (Event.is_canceled e)); [reflexivity|].
      apply Z.ltb_lt in Hlt. now rewrite Hlt.
Qed.

Lemma fallible_decrease_granted (ok : bool) (i q : Z) (e : Event.t) (db : DB) :
  events db !! i = Some e ->
  Event.is_canceled e <> Some true ->
  q <= Event.available_tickets e ->
  Fallible.decrease_available_tickets ok i q db
  = if ok then
      (Ok true,
       save_event i (Event.with_available_tickets e (Event.available_tickets e - q)) db)
    else (Raise Fallible.commit_error, db).
Proof.
  intros Hget Hc Hle. unfold Fallible.decrease_available_tickets, EventService.get.
  rewrite Hget.
  assert (truthy_bool (Event.is_canceled e) = false) as ->.
  { destruct (Event.is_canceled e) as [[|]|]; simpl; congruence. }
  apply Z.ltb_ge in Hle. now rewrite Hle.
Qed.

(** A reservation is refused or granted. *)
Lemma reservation_refused_or_granted (i q : Z) (db : DB) :
  reservation_refused i q db
  \/ exists e, events db !! i = Some e
               /\ Event.is_canceled e <> Some true
               /\ q <= Event.available_tickets e.
Proof.
  unfold reservation_refused.
  destruct (events db !! i) as [e|]; [|left; left; reflexivity].
  destruct (decide (Event.is_canceled e = Some true)) as [Hc|Hc].
  - left. right. eauto.
  - destruct (Z.lt_ge_cases (Event.available_tickets e) q).
    + left. right. eauto.
    + right. eauto.
Qed.

(** C2, as amended. [OrderService.create] on a store whose next order key
    is unused, for a quantity that converts to a float, the outcome of its
    commits being [c]. When every commit goes through: a refused
    reservation makes the call raise the inventory [ValueError] and leaves
    the [orders] and [events] tables what they were; a granted one returns
    the new PENDING order, stored under the next key next to the orders
    that were there, and the row of the event has [available_tickets]
    lower by the quantity and nothing else changed. Whatever the commits
    do: the [events] table changes only if the order is returned and
    stored, so no decrement is left without its order. (An order left
    without its decrement is what a failing second or third commit
    gives.) *)
Theorem create_order_all_or_nothing (c : Fallible.commits)
    (user_id event_id quantity : Z) (payment_method : string)
    (unit_price total : float) (db : DB) :
  order_key_fresh db ->
  float_mul_int unit_price quantity = Ok total ->
  let out := Fallible.create c user_id event_id quantity payment_method unit_price db in
  (c = Fallible.all_ok ->
   (reservation_refused event_id quantity db ->
    fst out = Raise (ValueError "Failed to reserve tickets. Not enough available tickets.")
    /\ orders (snd out) = orders db
    /\ events (snd out) = events db)
   /\ (forall e,
         events db !! event_id = Some e ->
         Event.is_canceled e <> Some true ->
         quantity <= Event.available_tickets e ->
         exists order e',
           fst out = Ok order
           /\ order = Order.mk (next_order_id db) user_id event_id quantity unit_price
                               total PENDING None (Some payment_method) None
           /\ orders (snd out) !! next_order_id db = Some order
           /\ (forall k, k <> next_order_id db -> orders (snd out) !! k = orders db !! k)
           /\ events (snd out) !! event_id = Some e'
           /\ Event.available_tickets e' = Event.available_tickets e - quantity
           /\ same_event_but_available e e'
           /\ (forall k, k <> event_id -> events (snd out) !! k = events db !! k)))
  /\ (events (snd out) <> events db ->
      exists order,
        fst out = Ok order
        /\ Order.quantity order = quantity
        /\ Order.event_id order = event_id
        /\ orders (snd out) !! next_order_id db = Some order).
Proof.
  intros Hfresh Hmul out. subst out. unfold Fallible.create. rewrite Hmul.
  set (db_order := Order.mk _ _ _ _ _ _ _ _ _ _).
  set (db1 := mkDB _ _ _ _).
  split.
  - intros ->. simpl. split.
    + intros Href.
      rewrite (fallible_decrease_refused true event_id quantity db1 Href). simpl.
      repeat split. apply delete_insert_id. exact Hfresh.
    + intros e Hget Hc Hle.
      rewrite (fallible_decrease_granted true event_id quantity e db1 Hget Hc Hle).
      simpl. exists db_order. eexists.
      split; [reflexivity|]. split; [reflexivity|].
      split; [apply lookup_insert_eq|].
      split; [intros k Hk; rewrite lookup_insert_ne by congruence; reflexivity|].
      split; [apply lookup_insert_eq|].
      split; [destruct e; reflexivity|].
      split; [apply with_available_tickets_same|].
      intros k Hk. rewrite lookup_insert_ne by congruence. reflexivity.
  - destruct (Fallible.insert_ok c); simpl; [|congruence].
    destruct (reservation_refused_or_granted event_id quantity db)
      as [Href | (e & Hget & Hc & Hle)].
    + rewrite (fallible_decrease_refused _ event_id quantity db1 Href). simpl.
      destruct (Fallible.delete_ok c); simpl; congruence.
    + rewrite (fallible_decrease_granted _ event_id quantity e db1 Hget Hc Hle).
      destruct (Fallible.decrement_ok c); simpl; [|congruence].
      intros _. exists db_order. repeat split. apply lookup_insert_eq.
Qed.

(** A request for 3 tickets with 2 left is refused and leaves nothing; with
    10 left it is granted, and order and decrement are both stored. *)
Lemma create_order_all_or_nothing_witness :
  (fst (Fallible.create Fallible.all_ok 7 1 3 "credit_card" 100 (sample_db 10 2))
   = Raise (ValueError "Failed to reserve tickets. Not enough available tickets.")
   /\ orders (snd (Fallible.create Fallible.all_ok 7 1 3 "credit_card" 100 (sample_db 10 2)))
      = orders (sample_db 10 2)
   /\ events (snd (Fallible.create Fallible.all_ok 7 1 3 "credit_card" 100 (sample_db 10 2)))
      = events (sample_db 10 2))
  /\ (events (snd (Fallible.create Fallible.all_ok 7 1 3 "credit_card" 100
                     (sample_db 10 10)))
      <> events (sample_db 10 10) ->
      exists order,
        fst (Fallible.create Fallible.all_ok 7 1 3 "credit_card" 100 (sample_db 10 10))
        = Ok order
        /\ Order.quantity order = 3
        /\ Order.event_id order = 1
        /\ orders (snd (Fallible.create Fallible.all_ok 7 1 3 "credit_card" 100
                          (sample_db 10 10))) !! next_order_id (sample_db 10 10)
           = Some order).
Proof.
  split.
  - refine (proj1 (proj1 (create_order_all_or_nothing Fallible.all_ok 7 1 3 "credit_card"
                            100 300 (sample_db 10 2) _ _) eq_refl) _).
    + vm_compute. reflexivity.
    + vm_compute. reflexivity.
    + right. exists (sample_event 10 2). split; [vm_compute; reflexivity|].
      right. simpl. lia.
  - refine (proj2 (create_order_all_or_nothing Fallible.all_ok 7 1 3 "credit_card"
                     100 300 (sample_db 10 10) _ _)).
    + vm_compute. reflexivity.
    + vm_compute. reflexivity.
Defined.

(** C2, as stated, fails. The order is committed before the tickets are
    reserved. When the commit of the decrement fails, the call raises and
    the order stays, with all 10 tickets still available; when the
    reservation is refused and the commit of the delete fails, the order
    stays too, and the error is not the inventory error. *)
Lemma create_order_partial_counterexample :
  (fst (Fallible.create (Fallible.mkCommits true false true) 7 1 3 "credit_card" 100
          (sample_db 10 10))
   = Raise Fallible.commit_error
   /\ orders (snd (Fallible.create (Fallible.mkCommits true false true) 7 1 3
                     "credit_card" 100 (sample_db 10 10))) !! 1
      = Some (sample_order PENDING None)
   /\ events (snd (Fallible.create (Fallible.mkCommits true false true) 7 1 3
                     "credit_card" 100 (sample_db 10 10)))
      = events (sample_db 10 10))
  /\ (reservation_refused 1 3 (sample_db 10 2)
      /\ fst (Fallible.create (Fallible.mkCommits true true false) 7 1 3 "credit_card" 100
                (sample_db 10 2))
         = Raise Fallible.commit_error
      /\ orders (snd (Fallible.create (Fallible.mkCommits true true false) 7 1 3
                        "credit_card" 100 (sample_db 10 2))) !! 1
         = Some (sample_order PENDING None)).
Proof.
  split; [repeat split; vm_compute; reflexivity|].
  split; [|split; vm_compute; reflexivity].
  right. exists (sample_event 10 2). split; [vm_compute; reflexivity|].
  right. simpl. lia.
Qed.

Example create_then_reserved :
  OrderService.create 7 1 3 "credit_card" 100 (sample_db 10 10)
  = (Ok (sample_order PENDING None), sample_db_with_order PENDING None).
Proof. vm_compute. reflexivity. Qed.

(** A quantity beyond the floats: the product raises before anything is
    written. *)
Example create_overflow :
  OrderService.create 7 1 (2 ^ 1024) "credit_card" 100 (sample_db 10 10)
  = (Raise (OverflowError "int too large to convert to float"), sample_db 10 10).
Proof. vm_compute. reflexivity. Qed.

(** The amount stored is the float product: three tickets at 0.1. *)
Example create_total_amount :
  Order.total_amount
    <$> orders (snd (OrderService.create 7 1 3 "credit_card" 0.1 (sample_db 10 10))) !! 1
  = Some 0.30000000000000004%float.
Proof. vm_compute. reflexivity. Qed.

(** Through the endpoints, one request after another: a request that is
    turned away leaves the store untouched, and a request that is let
    through stores the order together with the decrement. *)
Lemma create_order_endpoint (oc : OrderCreate.t) (u : User.t) (db : DB) :
  (exists e, OrdersApi.create_order oc u db = (Raise e, db)
             /\ OrdersApiFirst.create_order oc u db = (Raise e, db))
  \/ (exists order event,
        fst (OrdersApi.create_order oc u db) = Ok order
        /\ OrdersApiFirst.create_order oc u db = OrdersApi.create_order oc u db
        /\ Order.status order = PENDING
        /\ Order.quantity order = OrderCreate.quantity oc
        /\ orders (snd (OrdersApi.create_order oc u db))
           = <[next_order_id db := order]> (orders db)
        /\ events db !! OrderCreate.event_id oc = Some event
        /\ events (snd (OrdersApi.create_order oc u db))
           = <[OrderCreate.event_id oc :=
                 Event.with_available_tickets event
                   (Event.available_tickets event - OrderCreate.quantity oc)]>
               (events db)).
Proof.
  unfold OrdersApi.create_order, OrdersApiFirst.create_order,
    OrdersCommon.create_order_checks, EventService.get.
  destruct (events db !! OrderCreate.event_id oc) as [event|] eqn:Hget;
    [|left; eauto].
  destruct (truthy_bool (Event.is_published event)); simpl; [|left; eauto].
  destruct (truthy_bool (Event.is_canceled event)) eqn:Hc; [left; eauto|].
  destruct (Z.ltb_spec (Event.available_tickets event) (OrderCreate.quantity oc));
    [left; eauto|].
  unfold OrderService.create.
  destruct (float_mul_int (Event.ticket_price event) (OrderCreate.quantity oc))
    as [total|e] eqn:Hmul.
  2:{ apply float_mul_int_raises in Hmul as ->. left. eauto. }
  right.
  rewrite (decrease_frame (OrderCreate.event_id oc) (OrderCreate.quantity oc) db).
  rewrite (decrease_succeeds (OrderCreate.event_id oc) (OrderCreate.quantity oc)
             event db Hget Hc ltac:(lia)).
  simpl.
  do 2 eexists. repeat split; eauto.
Qed.

(** ** Reservations in flight together *)

Lemma interleaving_step_inv (i : Z) (r : Interleaving.request) (db : DB) :
  (exists e, events db !! i = Some e /\ 0 <= Event.available_tickets e) ->
  request_ok r ->
  (exists e, events (snd (Interleaving.step i r db)) !! i = Some e
             /\ 0 <= Event.available_tickets e)
  /\ request_ok (fst (Interleaving.step i r db)).
Proof.
  intros Hdb Hr. destruct r as [q|q ev|b]; simpl.
  - split; [exact Hdb|].
    unfold Interleaving.read, EventService.get.
    destruct (events db !! i) as [e|]; [|exact I].
    destruct (truthy_bool (Event.is_canceled e)); [exact I|].
    destruct (Z.ltb_spec (Event.available_tickets e) q); [exact I|]. simpl. lia.
  - split; [|exact I].
    eexists. split; [apply lookup_insert_eq|].
    simpl in Hr. destruct ev; simpl in *. lia.
  - split; [exact Hdb | exact I].
Qed.

Lemma interleaving_run_inv (i : Z) (schedule : list nat) :
  forall (requests : list Interleaving.request) (db : DB),
    (exists e, events db !! i = Some e /\ 0 <= Event.available_tickets e) ->
    Forall request_ok requests ->
    exists e,
      events (snd (Interleaving.run i schedule requests db)) !! i = Some e
      /\ 0 <= Event.available_tickets e.
Proof.
  induction schedule as [|k rest IH]; intros requests db Hdb Hrs; simpl.
  - exact Hdb.
  - destruct (requests !! k) as [r|] eqn:Hk; [|now apply IH].
    assert (Hr : request_ok r) by (eapply Forall_lookup_1; eauto).
    destruct (interleaving_step_inv i r db Hdb Hr) as [Hdb' Hr'].
    destruct (Interleaving.step i r db) as [r' db']. simpl in *.
    apply IH; [exact Hdb'|]. now apply Forall_insert.
Qed.

(** C8, as amended. Reservations on one event, in flight together, their
    reads and writes interleaved by any schedule: if the event starts with
    no negative availability, the [available_tickets] stored is never
    negative. A request whose read and write follow one another does what
    [decrease_available_tickets] does. *)
Theorem interleaved_reservations_stay_nonnegative (event_id : Z)
    (schedule : list nat) (quantities : list Z) (db : DB) (e : Event.t) :
  events db !! event_id = Some e ->
  0 <= Event.available_tickets e ->
  (exists e',
     events (snd (Interleaving.run event_id schedule
                    (map Interleaving.Waiting quantities) db)) !! event_id
     = Some e'
     /\ 0 <= Event.available_tickets e')
  /\ (forall q,
        Interleaving.run event_id [0; 0]%nat [Interleaving.Waiting q] db
        = ([Interleaving.Finished
              (fst (EventService.decrease_available_tickets event_id q db))],
           snd (EventService.decrease_available_tickets event_id q db))).
Proof.
  intros Hget Havail. split.
  - apply interleaving_run_inv; [eauto|].
    induction quantities; constructor; [exact I | assumption].
  - intros q. simpl.
    unfold Interleaving.read, EventService.decrease_available_tickets.
    destruct (EventService.get event_id db) as [ev|]; [|reflexivity].
    destruct (truthy_bool (Event.is_canceled ev)); [reflexivity|].
    destruct (Event.available_tickets ev <? q); reflexivity.
Qed.

(** Two requests for 2 tickets each with 2 left, both reading before either
    writes: the stored count is 0, not below. *)
Lemma interleaved_reservations_stay_nonnegative_witness :
  exists e',
    events (snd (Interleaving.run 1 [0; 1; 0; 1]%nat
                   (map Interleaving.Waiting [2; 2]) (sample_db 2 2))) !! 1
    = Some e'
    /\ 0 <= Event.available_tickets e'.
Proof.
  refine (proj1 (interleaved_reservations_stay_nonnegative 1 [0; 1; 0; 1]%nat [2; 2]
                   (sample_db 2 2) (sample_event 2 2) _ _)).
  - vm_compute. reflexivity.
  - simpl. lia.
Defined.

(** C8, as stated, fails. With 2 tickets left, two requests for 2 tickets
    each: both read, then both write. Both are answered [True], 4 tickets
    are granted out of 2, and the second write repeats the first. *)
Lemma interleaved_reservations_counterexample :
  (Event.available_tickets <$> events (sample_db 2 2) !! 1) = Some 2
  /\ Interleaving.run 1 [0; 1; 0; 1]%nat
       [Interleaving.Waiting 2; Interleaving.Waiting 2] (sample_db 2 2)
     = ([Interleaving.Finished true; Interleaving.Finished true], sample_db 2 0)
  /\ granted [2; 2]
       (Interleaving.succeeded
          (fst (Interleaving.run 1 [0; 1; 0; 1]%nat
                  [Interleaving.Waiting 2; Interleaving.Waiting 2] (sample_db 2 2))))
     = 4.
Proof. repeat split; vm_compute; reflexivity. Qed.

(** The same two requests served one after the other: the second is
    refused. *)
Example serial_reservations_sample :
  Interleaving.run 1 [0; 0; 1; 1]%nat
    [Interleaving.Waiting 2; Interleaving.Waiting 2] (sample_db 2 2)
  = ([Interleaving.Finished true; Interleaving.Finished false], sample_db 2 0).
Proof. vm_compute. reflexivity. Qed.

(** ** Order life cycle

    [OrderService.get] is called and never defined, so everything that
    looks an order up stops at the lookup: the guards on the order's status
    below it are never reached. *)

Lemma update_status_raises (i : Z) (st : OrderStatus) (pid : option string) (now : Z)
    (db : DB) :
  OrderService.update_status i st pid now db = (Raise missing_get, db).
Proof. reflexivity. Qed.

Lemma cancel_order_service_raises (i : Z) (rid : option string) (db : DB) :
  OrderService.cancel_order i rid db = (Raise missing_get, db).
Proof. reflexivity. Qed.

Lemma process_payment_raises (msg : PaymentResult.t -> string) (i : Z)
    (pd : PaymentProcess.t) (u : User.t) (now : Z) (hex : string) (db : DB) :
  OrdersCommon.process_payment msg i pd u now hex db = (Raise missing_get, db).
Proof. reflexivity. Qed.

(** C3, at the failing input. A stored CANCELED order (or a REFUNDED one),
    and its owner asking to cancel it again: the endpoint raises the
    [AttributeError] of the missing [OrderService.get], which the
    application answers with a 500, not with the conflict error of the
    guard forty lines below; the store, the order and the inventory
    included, is left as it was. It is so for the payment endpoint, for
    [update_status] and for the administrator's [update_order] too, and
    for every order, caller and store. *)
Theorem terminal_order_requests_raise :
  OrderService.get 1 (sample_db_with_order CANCELED None) = Raise missing_get
  /\ OrdersApi.cancel_order 1 alice (sample_db_with_order CANCELED None)
     = (Raise missing_get, sample_db_with_order CANCELED None)
  /\ OrdersApi.cancel_order 1 alice (sample_db_with_order REFUNDED None)
     = (Raise missing_get, sample_db_with_order REFUNDED None)
  /\ OrdersApi.process_payment 1 expired_card alice 1000 "0123456789abcdef"
       (sample_db_with_order CANCELED None)
     = (Raise missing_get, sample_db_with_order CANCELED None)
  /\ (forall (order_id : Z) (current_user : User.t) (payment_data : PaymentProcess.t)
             (now : Z) (uuid_hex : string) (new_status : option OrderStatus)
             (status : OrderStatus) (payment_id : option string) (db : DB),
        OrdersApi.cancel_order order_id current_user db = (Raise missing_get, db)
        /\ OrdersApiFirst.cancel_order order_id current_user db = (Raise missing_get, db)
        /\ OrdersApi.process_payment order_id payment_data current_user now uuid_hex db
           = (Raise missing_get, db)
        /\ OrdersApiFirst.process_payment order_id payment_data current_user now uuid_hex db
           = (Raise missing_get, db)
        /\ OrderService.update_status order_id status payment_id now db
           = (Raise missing_get, db)
        /\ OrdersApiFirst.update_order order_id new_status payment_id now db
           = (Raise missing_get, db)).
Proof.
  split; [reflexivity|]. split; [reflexivity|]. split; [reflexivity|].
  split; [reflexivity|]. intros. repeat split.
Qed.

(** C7, at the failing input. A stored PAID order with payment id
    [payment_abc], and its owner sending a payment request again: both
    halves of [orders.py] raise the [AttributeError] of the missing
    [OrderService.get] (a 500 at the API) instead of answering "Order is
    already paid" with the stored payment id. Nothing is written: the
    order keeps its [paid_at] and [payment_id], the event its
    [available_tickets]. It is so for every order, caller and store. *)
Theorem paid_order_payment_raises :
  orders (sample_db_with_order PAID (Some "payment_abc")) !! 1
  = Some (sample_order PAID (Some "payment_abc"))
  /\ OrdersApi.process_payment 1 expired_card alice 1000 "0123456789abcdef"
       (sample_db_with_order PAID (Some "payment_abc"))
     = (Raise missing_get, sample_db_with_order PAID (Some "payment_abc"))
  /\ (forall (order_id : Z) (payment_data : PaymentProcess.t) (current_user : User.t)
             (now : Z) (uuid_hex : string) (db : DB),
        OrdersApi.process_payment order_id payment_data current_user now uuid_hex db
        = (Raise missing_get, db)
        /\ OrdersApiFirst.process_payment order_id payment_data current_user now uuid_hex db
           = (Raise missing_get, db)).
Proof.
  split; [vm_compute; reflexivity|]. split; [reflexivity|].
  intros. split; reflexivity.
Qed.

(** The background task does not look the order up before it charges: the
    gateway is asked first, and the status update that follows a success
    raises inside the [try]. The task then reports a failure, and the
    order is never marked PAID. *)
Example task_on_paid_order :
  PaymentTasks.process_payment_async 1 300 "paypal"
    (PaymentDetails.mk None None None None None) 2000 "fedcba9876543210"
    (sample_db_with_order PAID (Some "payment_abc"))
  = (PaymentResult.mk false
       (Some "Payment processing error: 'OrderService' object has no attribute 'get'")
       None,
     sample_db_with_order PAID (Some "payment_abc")).
Proof. vm_compute. reflexivity. Qed.

(** ** Card checks *)

Lemma truthy_str_Some (o : option string) :
  truthy_str o = true -> exists s, o = Some s /\ s <> "".
Proof. destruct o as [[|a s]|]; simpl; try discriminate. intros _. eauto. Qed.

Lemma truthy_int_Some (o : option Z) :
  truthy_int o = true -> exists z, o = Some z /\ z <> 0.
Proof.
  destruct o as [z|]; simpl; [|discriminate].
  intros H. exists z. split; [reflexivity|].
  intros ->. discriminate.
Qed.

Ltac card_presence d :=
  let H := fresh "Hp" in
  destruct (truthy_str (PaymentDetails.card_number d)) eqn:H; simpl; [|discriminate];
  apply truthy_str_Some in H as (?number & ?Hnumber & ?Hnumber0);
  let H := fresh "Hp" in
  destruct (truthy_int (PaymentDetails.card_exp_month d)) eqn:H; simpl; [|discriminate];
  apply truthy_int_Some in H as (?month & ?Hmonth & ?Hmonth0);
  let H := fresh "Hp" in
  destruct (truthy_int (PaymentDetails.card_exp_year d)) eqn:H; simpl; [|discriminate];
  apply truthy_int_Some in H as (?year & ?Hyear & ?Hyear0);
  let H := fresh "Hp" in
  destruct (truthy_str (PaymentDetails.card_cvc d)) eqn:H; simpl; [|discriminate];
  apply truthy_str_Some in H as (?cvc & ?Hcvc & ?Hcvc0).

(** The class in use enforces every rule of the specification but the
    expiry one: what it accepts is well formed and has a year from 2000 to
    2100, whatever the current date. *)
Lemma validate_credit_card_accepts (d : PaymentDetails.t) :
  PaymentService._validate_credit_card d = true ->
  card_well_formed d
  /\ exists year, PaymentDetails.card_exp_year d = Some year /\ 2000 <= year <= 2100.
Proof.
  unfold PaymentService._validate_credit_card. card_presence d.
  rewrite Hnumber, Hmonth, Hyear, Hcvc. simpl.
  destruct (isdigit (remove_char "-" (remove_char " " number))) eqn:Hd;
    simpl; [|discriminate].
  destruct (Z.leb_spec 13 (len (remove_char "-" (remove_char " " number))));
    simpl; [|discriminate].
  destruct (Z.leb_spec (len (remove_char "-" (remove_char " " number))) 19);
    simpl; [|discriminate].
  destruct (Z.leb_spec 1 month); simpl; [|discriminate].
  destruct (Z.leb_spec month 12); simpl; [|discriminate].
  destruct (Z.leb_spec 2000 year); simpl; [|discriminate].
  destruct (Z.leb_spec year 2100); simpl; [|discriminate].
  destruct (isdigit cvc) eqn:Hc; simpl; [|discriminate].
  destruct (Z.leb_spec 3 (len cvc)); simpl; [|discriminate].
  destruct (Z.leb_spec (len cvc) 4); simpl; [|discriminate].
  intros _. split.
  - exists number, month, year, cvc. repeat split; auto.
  - exists year. split; [reflexivity | lia].
Qed.

(** The first class enforces all the rules, the expiry one included: what
    it accepts is well formed and not expired at the current date, and it
    accepts everything that is. *)
Lemma first_validate_credit_card_accepts (d : PaymentDetails.t)
    (current_year current_month : Z) :
  PaymentServiceFirst.valid
    (PaymentServiceFirst._validate_credit_card d current_year current_month) = true
  <-> card_well_formed d /\ not_expired d current_year current_month.
Proof.
  unfold PaymentServiceFirst._validate_credit_card. split.
  - card_presence d.
    rewrite Hnumber, Hmonth, Hyear, Hcvc. simpl.
    destruct (isdigit (remove_char "-" (remove_char " " number))) eqn:Hd;
      simpl; [|discriminate].
    destruct (Z.leb_spec 13 (len (remove_char "-" (remove_char " " number))));
      simpl; [|discriminate].
    destruct (Z.leb_spec (len (remove_char "-" (remove_char " " number))) 19);
      simpl; [|discriminate].
    destruct (Z.leb_spec 1 month); simpl; [|discriminate].
    destruct (Z.leb_spec month 12); simpl; [|discriminate].
    destruct (Z.ltb_spec year current_year); simpl; [discriminate|].
    destruct (Z.eqb_spec year current_year); simpl.
    + destruct (Z.ltb_spec month current_month); simpl; [discriminate|].
      destruct (isdigit cvc) eqn:Hc; simpl; [|discriminate].
      destruct (Z.leb_spec 3 (len cvc)); simpl; [|discriminate].
      destruct (Z.leb_spec (len cvc) 4); simpl; [|discriminate].
      intros _. split.
      * exists number, month, year, cvc. repeat split; auto.
      * exists month, year. repeat split; auto.
    + destruct (isdigit cvc) eqn:Hc; simpl; [|discriminate].
      destruct (Z.leb_spec 3 (len cvc)); simpl; [|discriminate].
      destruct (Z.leb_spec (len cvc) 4); simpl; [|discriminate].
      intros _. split.
      * exists number, month, year, cvc. repeat split; auto.
      * exists month, year. repeat split; auto. left. lia.
  - intros [(number & month & year & cvc & Hn & Hm & Hy & Hc & Hn0 & Hm0 & Hy0 & Hc0
             & Hd & Hlen & Hmonth & Hcd & Hclen)
            (month' & year' & Hm' & Hy' & Hexp)].
    rewrite Hn, Hm, Hy, Hc. rewrite Hm in Hm'. rewrite Hy in Hy'. simplify_eq.
    assert (truthy_str (Some number) = true) as -> by (destruct number; [done|reflexivity]).
    assert (truthy_str (Some cvc) = true) as -> by (destruct cvc; [done|reflexivity]).
    assert (truthy_int (Some month') = true) as ->
      by (simpl; destruct (Z.eqb_spec month' 0); [done|reflexivity]).
    assert (truthy_int (Some year') = true) as ->
      by (simpl; destruct (Z.eqb_spec year' 0); [done|reflexivity]).
    simpl. rewrite Hd, Hcd. simpl.
    destruct (Z.leb_spec 13 (len (remove_char "-" (remove_char " " number)))); [|lia].
    destruct (Z.leb_spec (len (remove_char "-" (remove_char " " number))) 19); [|lia].
    destruct (Z.leb_spec 1 month'); [|lia].
    destruct (Z.leb_spec month' 12); [|lia]. simpl.
    destruct (Z.ltb_spec year' current_year); [lia|].
    destruct (Z.eqb_spec year' current_year); simpl.
    + destruct (Z.ltb_spec month' current_month); [lia|].
      destruct (Z.leb_spec 3 (len cvc)); [|lia].
      destruct (Z.leb_spec (len cvc) 4); [|lia]. reflexivity.
    + destruct (Z.leb_spec 3 (len cvc)); [|lia].
      destruct (Z.leb_spec (len cvc) 4); [|lia]. reflexivity.
Qed.

(** C9, at the failing input. [PaymentService().process_payment] called
    with method [credit_card] and the details of a card that is well
    formed but expired in January 2020, in November 2026: the
    [_validate_credit_card] in use (second class) accepts the details and
    [process_payment] reports success, for every amount and random draw,
    while the first class's [_validate_credit_card] answers "Card has
    expired". *)
Theorem expired_card_is_accepted :
  card_well_formed (PaymentProcess.details expired_card)
  /\ ~ not_expired (PaymentProcess.details expired_card) 2026 11
  /\ PaymentService._validate_credit_card (PaymentProcess.details expired_card) = true
  /\ (forall amount uuid_hex,
        PaymentResult.success
          (PaymentService.process_payment amount "credit_card"
             (PaymentProcess.details expired_card) uuid_hex) = true)
  /\ PaymentServiceFirst._validate_credit_card (PaymentProcess.details expired_card) 2026 11
     = PaymentServiceFirst.invalid "Card has expired".
Proof.
  split; [|split; [|split; [|split]]].
  - apply (validate_credit_card_accepts (PaymentProcess.details expired_card)).
    vm_compute. reflexivity.
  - intros (month & year & Hm & Hy & Hexp). simpl in Hm, Hy. simplify_eq. lia.
  - vm_compute. reflexivity.
  - intros amount uuid_hex. reflexivity.
  - vm_compute. reflexivity.
Qed.


(** The same card through the endpoint: the request stops at the missing
    [OrderService.get], before the card is looked at. *)
Example expired_card_at_endpoint :
  OrdersApi.process_payment 1 expired_card alice 1000 "0123456789abcdef"
    (sample_db_with_order PENDING None)
  = (Raise missing_get, sample_db_with_order PENDING None).
Proof. reflexivity. Qed.

(** ** Refund reference on cancellation *)

(** C10, at the failing input. [cancel_order(1, "refund_123")] on a stored
    PAID order with payment id [payment_abc]: the call raises the
    [AttributeError] of the missing [OrderService.get] at its first line,
    and the stored payment id stays [payment_abc]; no
    [payment_abc:refund:refund_123] is written, and the status stays
    PAID. It is so for every order id, refund id and store, and for a
    stored order without payment id as well. *)
Theorem cancel_order_refund_raises :
  orders (sample_db_with_order PAID (Some "payment_abc")) !! 1
  = Some (sample_order PAID (Some "payment_abc"))
  /\ OrderService.cancel_order 1 (Some "refund_123")
       (sample_db_with_order PAID (Some "payment_abc"))
     = (Raise missing_get, sample_db_with_order PAID (Some "payment_abc"))
  /\ (Order.payment_id
        <$> orders (snd (OrderService.cancel_order 1 (Some "refund_123")
                           (sample_db_with_order PAID (Some "payment_abc")))) !! 1)
     = Some (Some "payment_abc")
  /\ OrderService.cancel_order 1 (Some "refund_123") (sample_db_with_order PAID None)
     = (Raise missing_get, sample_db_with_order PAID None)
  /\ (forall (order_id : Z) (refund_id : option string) (db : DB),
        OrderService.cancel_order order_id refund_id db = (Raise missing_get, db)).
Proof.
  split; [vm_compute; reflexivity|]. split; [reflexivity|].
  split; [vm_compute; reflexivity|]. split; [reflexivity|].
  intros. reflexivity.
Qed.

(** * Further properties of the code *)

(** ** Inventory ledger: round trips and serial use *)

Lemma save_event_back (k : Z) (e e1 : Event.t) (db : DB) :
  events db !! k = Some e ->
  save_event k e (save_event k e1 db) = db.
Proof.
  intros Hget. destruct db as [ev od ne no]. unfold save_event, with_events. simpl in *.
  f_equal. rewrite insert_insert_eq. now apply insert_id.
Qed.

(** X1. Reserve then release. On an event that is not canceled, holds at least
    [q] tickets and is within its capacity, reserving [q] tickets succeeds
    and releasing [q] afterwards gives back the very store the reservation
    started from. *)
Theorem reserve_then_release_restores (event_id q : Z) (e : Event.t) (db : DB) :
  EventService.get event_id db = Some e ->
  truthy_bool (Event.is_canceled e) = false ->
  q <= Event.available_tickets e <= Event.total_capacity e ->
  fst (EventService.decrease_available_tickets event_id q db) = true
  /\ EventService.increase_available_tickets event_id q
       (snd (EventService.decrease_available_tickets event_id q db))
     = (true, db).
Proof.
  intros Hget Hc [Hq Hcap]. unfold EventService.get in Hget.
  rewrite (decrease_succeeds event_id q e db Hget Hc Hq). simpl. split; [reflexivity|].
  unfold EventService.increase_available_tickets, EventService.get.
  unfold save_event at 1. simpl. rewrite lookup_insert_eq. f_equal.
  replace (Event.with_available_tickets _ _) with e.
  - now apply save_event_back.
  - destruct e as [i t a p pu ca]. simpl in *. unfold Event.with_available_tickets. simpl.
    f_equal. lia.
Qed.

Lemma reserve_then_release_restores_witness :
  fst (EventService.decrease_available_tickets 1 3 (sample_db 10 10)) = true
  /\ EventService.increase_available_tickets 1 3
       (snd (EventService.decrease_available_tickets 1 3 (sample_db 10 10)))
     = (true, sample_db 10 10).
Proof.
  apply (reserve_then_release_restores 1 3 (sample_event 10 10) (sample_db 10 10)).
  - vm_compute. reflexivity.
  - reflexivity.
  - simpl. lia.
Defined.

(** Three reservations of 4 on 10 available tickets, one after the other:
    two are granted and 2 tickets are left. *)
Lemma reserve_all_conserves_witness :
  exists e',
    events (snd (reserve_all 1 [4; 4; 4] (sample_db 10 10))) !! 1 = Some e'
    /\ Event.available_tickets e'
       = Event.available_tickets (sample_event 10 10)
         - granted [4; 4; 4] (fst (reserve_all 1 [4; 4; 4] (sample_db 10 10)))
    /\ 0 <= Event.available_tickets e'
    /\ length (fst (reserve_all 1 [4; 4; 4] (sample_db 10 10))) = length [4; 4; 4].
Proof.
  apply (reserve_all_conserves 1 [4; 4; 4]).
  - repeat constructor; lia.
  - vm_compute. reflexivity.
  - simpl. lia.
Defined.

Example reserve_all_sample :
  fst (reserve_all 1 [4; 4; 4] (sample_db 10 10)) = [true; true; false].
Proof. vm_compute. reflexivity. Qed.

(** X4. Capacity there and back. On a stored event with no negative
    availability, a capacity update to [t1] that the tickets sold allow,
    followed by an update back to the old capacity, succeeds twice and
    gives back the very store it started from. *)
Theorem resize_there_and_back (event_id t1 : Z) (e : Event.t) (db : DB) :
  EventService.get event_id db = Some e ->
  Event.id e = event_id ->
  0 <= Event.available_tickets e ->
  Event.total_capacity e - Event.available_tickets e <= t1 ->
  exists e1,
    EventsApi.update_event event_id (EventUpdate.mk (Val t1) Unset Unset) db
    = (Ok e1, save_event event_id e1 db)
    /\ Event.total_capacity e1 = t1
    /\ EventsApi.update_event event_id
         (EventUpdate.mk (Val (Event.total_capacity e)) Unset Unset)
         (save_event event_id e1 db)
       = (Ok e, db).
Proof.
  intros Hget Hid Havail Hsold. unfold EventsApi.update_event. rewrite Hget.
  unfold EventService.update at 1. simpl.
  destruct (Z.ltb_spec (Event.available_tickets e + (t1 - Event.total_capacity e)) 0);
    [lia|].
  rewrite Hid. eexists. split; [reflexivity|]. split; [reflexivity|].
  unfold EventService.get, save_event at 1. simpl. rewrite lookup_insert_eq.
  unfold EventService.update. simpl.
  match goal with |- context [?x <? 0] => destruct (Z.ltb_spec x 0); [lia|] end.
  rewrite Hid.
  match goal with |- (Ok ?a, _) = _ => replace a with e end.
  - f_equal. now apply save_event_back.
  - destruct e as [i t a p pu ca]. unfold EventService.apply_update. simpl in *.
    f_equal. lia.
Qed.

Lemma resize_there_and_back_witness :
  exists e1,
    EventsApi.update_event 1 (EventUpdate.mk (Val 50) Unset Unset) (sample_db 100 90)
    = (Ok e1, save_event 1 e1 (sample_db 100 90))
    /\ Event.total_capacity e1 = 50
    /\ EventsApi.update_event 1
         (EventUpdate.mk (Val (Event.total_capacity (sample_event 100 90))) Unset Unset)
         (save_event 1 e1 (sample_db 100 90))
       = (Ok (sample_event 100 90), sample_db 100 90).
Proof.
  apply (resize_there_and_back 1 50 (sample_event 100 90) (sample_db 100 90)).
  - vm_compute. reflexivity.
  - reflexivity.
  - simpl. lia.
  - simpl. lia.
Defined.

(** ** Invariants of the store *)

Lemma is_Some_insert_mono {A} (m : gmap Z A) (k j : Z) (v : A) :
  is_Some (m !! j) -> is_Some (<[k := v]> m !! j).
Proof.
  intros H. destruct (decide (k = j)) as [->|Hne].
  - rewrite lookup_insert_eq. eauto.
  - now rewrite lookup_insert_ne.
Qed.

Lemma wf_save_event (k : Z) (e : Event.t) (db : DB) :
  db_wf db -> is_Some (events db !! k) -> Event.id e = k -> db_wf (save_event k e db).
Proof.
  intros [[Hke Hko] [Hie Hio]] [e0 Hk] Hid. unfold save_event, with_events.
  repeat split; simpl; try assumption; intros j x Hj.
  - destruct (decide (k = j)) as [->|Hne]; [eauto|].
    rewrite lookup_insert_ne in Hj by done. eauto.
  - destruct (decide (k = j)) as [->|Hne].
    + rewrite lookup_insert_eq in Hj. now simplify_eq.
    + rewrite lookup_insert_ne in Hj by done. eauto.
Qed.

Lemma wf_save_order (k : Z) (o : Order.t) (db : DB) :
  db_wf db -> is_Some (orders db !! k) -> Order.id o = k -> db_wf (save_order k o db).
Proof.
  intros [[Hke Hko] [Hie Hio]] [o0 Hk] Hid. unfold save_order, with_orders.
  repeat split; simpl; try assumption; intros j x Hj.
  - destruct (decide (k = j)) as [->|Hne]; [eauto|].
    rewrite lookup_insert_ne in Hj by done. eauto.
  - destruct (decide (k = j)) as [->|Hne].
    + rewrite lookup_insert_eq in Hj. now simplify_eq.
    + rewrite lookup_insert_ne in Hj by done. eauto.
Qed.

Lemma wf_decrease (i q : Z) (db : DB) :
  db_wf db -> db_wf (snd (EventService.decrease_available_tickets i q db)).
Proof.
  intros Hwf. unfold EventService.decrease_available_tickets, EventService.get.
  destruct (events db !! i) as [e|] eqn:Hget; [|exact Hwf].
  repeat case_match; simpl; try exact Hwf.
  apply wf_save_event; [exact Hwf | eauto |].
  destruct Hwf as [_ [Hie _]]. specialize (Hie i e Hget). destruct e; exact Hie.
Qed.

Lemma wf_increase (i q : Z) (db : DB) :
  db_wf db -> db_wf (snd (EventService.increase_available_tickets i q db)).
Proof.
  intros Hwf. unfold EventService.increase_available_tickets, EventService.get.
  destruct (events db !! i) as [e|] eqn:Hget; [|exact Hwf]. simpl.
  apply wf_save_event; [exact Hwf | eauto |].
  destruct Hwf as [_ [Hie _]]. specialize (Hie i e Hget). destruct e; exact Hie.
Qed.

Lemma wf_update (i : Z) (e : Event.t) (eu : EventUpdate.t) (db : DB) :
  db_wf db -> events db !! i = Some e ->
  db_wf (snd (EventService.update e eu db)).
Proof.
  intros Hwf Hget.
  assert (Hid : Event.id e = i) by (destruct Hwf as [_ [Hie _]]; eauto).
  unfold EventService.update.
  repeat case_match; simpl; try exact Hwf;
    (apply wf_save_event; [exact Hwf | rewrite Hid; eauto | reflexivity]).
Qed.

Lemma wf_create_order (u i q : Z) (pm : string) (price : float) (db : DB) :
  db_wf db -> db_wf (snd (OrderService.create u i q pm price db)).
Proof.
  intros Hwf. unfold OrderService.create.
  destruct (float_mul_int price q) as [total|e]; [|exact Hwf].
  set (db_order := Order.mk _ _ _ _ _ _ _ _ _ _).
  set (db1 := mkDB _ _ _ _).
  assert (Hwf1 : db_wf db1).
  { destruct Hwf as [[Hke Hko] [Hie Hio]]. subst db1.
    repeat split; simpl; try assumption; intros j x Hj.
    - destruct (decide (next_order_id db = j)) as [<-|Hne]; [lia|].
      rewrite lookup_insert_ne in Hj by done. specialize (Hko j x Hj). lia.
    - destruct (decide (next_order_id db = j)) as [<-|Hne].
      + rewrite lookup_insert_eq in Hj. simplify_eq. reflexivity.
      + rewrite lookup_insert_ne in Hj by done. eauto. }
  pose proof (wf_decrease i q db1 Hwf1) as Hwf2.
  destruct (EventService.decrease_available_tickets i q db1) as [success db2].
  destruct success; simpl in *; [exact Hwf2|].
  destruct Hwf2 as [[Hke Hko] [Hie Hio]].
  repeat split; simpl; try assumption; intros j x Hj;
    apply lookup_delete_Some in Hj as [_ Hj]; eauto.
Qed.

Lemma wf_update_status (i : Z) (st : OrderStatus) (pid : option string) (now : Z)
    (db : DB) :
  db_wf db -> db_wf (snd (OrderService.update_status i st pid now db)).
Proof.
  intros Hwf. rewrite update_status_raises. exact Hwf.
Qed.

Lemma wf_cancel_order_service (i : Z) (rid : option string) (db : DB) :
  db_wf db -> db_wf (snd (OrderService.cancel_order i rid db)).
Proof.
  intros Hwf. rewrite cancel_order_service_raises. exact Hwf.
Qed.

Lemma wf_process_payment (msg : PaymentResult.t -> string) (i : Z)
    (pd : PaymentProcess.t) (u : User.t) (now : Z) (hex : string) (db : DB) :
  db_wf db -> db_wf (snd (OrdersCommon.process_payment msg i pd u now hex db)).
Proof.
  intros Hwf. rewrite process_payment_raises. exact Hwf.
Qed.

Lemma wf_delete_event (i : Z) (db : DB) :
  db_wf db -> db_wf (snd (EventsApiRest.delete_event i db)).
Proof.
  intros Hwf. unfold EventsApiRest.delete_event, EventServiceRest.delete.
  destruct (EventService.get i db); [|exact Hwf].
  destruct (EventServiceRest.has_orders i db); [exact Hwf|]. simpl.
  destruct Hwf as [[Hke Hko] [Hie Hio]].
  repeat split; simpl; intros j x Hj.
  - apply lookup_delete_Some in Hj as [_ Hj]. eauto.
  - apply map_lookup_filter_Some in Hj as [Hj _]. eauto.
  - apply lookup_delete_Some in Hj as [_ Hj]. eauto.
  - apply map_lookup_filter_Some in Hj as [Hj _]. eauto.
Qed.

(** X5. The store stays well formed. From a store whose keys lie below the
    next keys and whose rows carry their key as [id], every operation that
    writes (the core operations, the event endpoints, payment processing,
    the status update) leaves such a store; in such a store the next order
    key is unused. *)
Theorem store_stays_well_formed (db : DB) :
  db_wf db ->
  (forall op, db_wf (run_op op db))
  /\ (forall i, db_wf (snd (EventsApiRest.delete_event i db)))
  /\ (forall i, db_wf (snd (EventsApiRest.publish_event i db)))
  /\ (forall i, db_wf (snd (EventsApiRest.cancel_event i db)))
  /\ (forall i pd u now hex, db_wf (snd (OrdersApi.process_payment i pd u now hex db)))
  /\ (forall i st pid now, db_wf (snd (OrderService.update_status i st pid now db)))
  /\ order_key_fresh db.
Proof.
  intros Hwf. split; [|split; [|split; [|split; [|split; [|split]]]]].
  - intros op. destruct op; simpl.
    + destruct Hwf as [[Hke Hko] [Hie Hio]].
      repeat split; simpl; try assumption; intros j x Hj.
      * destruct (decide (next_event_id db = j)) as [<-|Hne]; [lia|].
        rewrite lookup_insert_ne in Hj by done. specialize (Hke j x Hj). lia.
      * destruct (decide (next_event_id db = j)) as [<-|Hne].
        -- rewrite lookup_insert_eq in Hj. simplify_eq. reflexivity.
        -- rewrite lookup_insert_ne in Hj by done. eauto.
    + now apply wf_decrease.
    + now apply wf_increase.
    + unfold EventsApi.update_event, EventService.get.
      destruct (events db !! event_id) eqn:Hget; [|exact Hwf].
      eapply wf_update; eauto.
    + now apply wf_create_order.
    + unfold OrdersApi.create_order.
      destruct (OrdersCommon.create_order_checks order_create db); [|exact Hwf].
      now apply wf_create_order.
    + exact Hwf.
  - intros i. now apply wf_delete_event.
  - intros i. unfold EventsApiRest.publish_event, EventService.get.
    destruct (events db !! i) eqn:Hget; [|exact Hwf].
    case_match; [exact Hwf|]. eapply wf_update; eauto.
  - intros i. unfold EventsApiRest.cancel_event, EventService.get.
    destruct (events db !! i) eqn:Hget; [|exact Hwf].
    case_match; [exact Hwf|]. eapply wf_update; eauto.
  - intros. now apply wf_process_payment.
  - intros. now apply wf_update_status.
  - destruct Hwf as [[_ Hko] _]. unfold order_key_fresh.
    destruct (orders db !! next_order_id db) as [o|] eqn:Hn; [|reflexivity].
    specialize (Hko _ _ Hn). lia.
Qed.

Lemma sample_db_with_order_wf (st : OrderStatus) (pid : option string) :
  db_wf (sample_db_with_order st pid).
Proof.
  repeat split; simpl; intros k x Hk;
    apply lookup_singleton_Some in Hk as [<- <-]; simpl; lia || reflexivity.
Qed.

Lemma store_stays_well_formed_witness :
  db_wf (run_op (PlaceOrder (OrderCreate.mk 1 2 "credit_card") alice)
           (sample_db_with_order PENDING None)).
Proof.
  apply (proj1 (store_stays_well_formed (sample_db_with_order PENDING None)
                  ltac:(repeat split; simpl; intros k x Hk;
                        apply lookup_singleton_Some in Hk as [<- <-];
                        simpl; lia || reflexivity))).
Defined.

(** *** Orders keep their events *)

Lemma ohe_events_grow (db db' : DB) :
  orders_have_events db ->
  orders db' = orders db ->
  (forall k, is_Some (events db !! k) -> is_Some (events db' !! k)) ->
  orders_have_events db'.
Proof.
  intros Hdb Hord Hev k o Hk. rewrite Hord in Hk. eauto.
Qed.

Lemma decrease_events_grow (i q : Z) (db : DB) (k : Z) :
  is_Some (events db !! k) ->
  is_Some (events (snd (EventService.decrease_available_tickets i q db)) !! k).
Proof.
  unfold EventService.decrease_available_tickets.
  repeat case_match; simpl; auto. apply is_Some_insert_mono.
Qed.

Lemma increase_events_grow (i q : Z) (db : DB) (k : Z) :
  is_Some (events db !! k) ->
  is_Some (events (snd (EventService.increase_available_tickets i q db)) !! k).
Proof.
  unfold EventService.increase_available_tickets.
  repeat case_match; simpl; auto. apply is_Some_insert_mono.
Qed.

Lemma update_events_grow (e : Event.t) (eu : EventUpdate.t) (db : DB) (k : Z) :
  is_Some (events db !! k) ->
  is_Some (events (snd (EventService.update e eu db)) !! k).
Proof.
  unfold EventService.update.
  repeat case_match; simpl; auto; apply is_Some_insert_mono.
Qed.

Lemma update_orders (e : Event.t) (eu : EventUpdate.t) (db : DB) :
  orders (snd (EventService.update e eu db)) = orders db.
Proof. unfold EventService.update. repeat case_match; reflexivity. Qed.

Lemma decrease_true_event (i q : Z) (db : DB) :
  fst (EventService.decrease_available_tickets i q db) = true ->
  is_Some (events db !! i).
Proof.
  unfold EventService.decrease_available_tickets, EventService.get.
  destruct (events db !! i); [eauto | simpl; discriminate].
Qed.

Lemma ohe_create_order (u i q : Z) (pm : string) (price : float) (db : DB) :
  orders_have_events db ->
  orders_have_events (snd (OrderService.create u i q pm price db)).
Proof.
  intros Hdb. unfold OrderService.create.
  destruct (float_mul_int price q) as [total|e]; [|exact Hdb].
  rewrite (decrease_frame i q db).
  pose proof (decrease_true_event i q db) as Htrue.
  pose proof (decrease_events_grow i q db) as Hgrow.
  destruct (EventService.decrease_available_tickets i q db) as [b dbr].
  simpl in *. destruct b; simpl; intros k o Hk; simpl in *.
  - destruct (decide (next_order_id db = k)) as [<-|Hne].
    + rewrite lookup_insert_eq in Hk. simplify_eq. simpl. auto.
    + rewrite lookup_insert_ne in Hk by done. eauto.
  - apply lookup_delete_Some in Hk as [Hne Hk].
    rewrite lookup_insert_ne in Hk by done. eauto.
Qed.

Lemma has_orders_false (i : Z) (db : DB) :
  EventServiceRest.has_orders i db = false ->
  forall k o, orders db !! k = Some o -> Order.event_id o <> i.
Proof.
  unfold EventServiceRest.has_orders. intros H k o Hk Heq.
  apply bool_decide_eq_false in H. apply H. exists k, o. auto.
Qed.

Lemma ohe_service_delete (i : Z) (db : DB) :
  orders_have_events db -> orders_have_events (EventServiceRest.delete i db).
Proof.
  intros Hdb. unfold EventServiceRest.delete.
  destruct (EventService.get i db); [|exact Hdb].
  intros k o Hk. simpl in *.
  apply map_lookup_filter_Some in Hk as [Hk Hne]. simpl in Hne.
  rewrite lookup_delete_ne by done. eauto.
Qed.

(** X6. Orders keep their events. If every stored order refers to a stored
    event, that is still so after every core operation, after the event
    endpoints (publish, cancel, delete), and after [EventService.delete]
    itself, whose cascade removes the event's orders with it. *)
Theorem orders_keep_their_events (db : DB) :
  orders_have_events db ->
  (forall op, orders_have_events (run_op op db))
  /\ (forall i, orders_have_events (snd (EventsApiRest.delete_event i db)))
  /\ (forall i, orders_have_events (EventServiceRest.delete i db))
  /\ (forall i, orders_have_events (snd (EventsApiRest.publish_event i db)))
  /\ (forall i, orders_have_events (snd (EventsApiRest.cancel_event i db))).
Proof.
  intros Hdb. split; [|split; [|split; [|split]]].
  - intros op. destruct op; simpl.
    + intros k o Hk. simpl in *. apply is_Some_insert_mono. eauto.
    + eapply ohe_events_grow;
        [exact Hdb | apply decrease_orders | apply decrease_events_grow].
    + eapply ohe_events_grow;
        [exact Hdb | apply increase_orders | apply increase_events_grow].
    + unfold EventsApi.update_event. destruct (EventService.get event_id db); [|exact Hdb].
      eapply ohe_events_grow; [exact Hdb | apply update_orders | apply update_events_grow].
    + now apply ohe_create_order.
    + unfold OrdersApi.create_order.
      destruct (OrdersCommon.create_order_checks order_create db); [|exact Hdb].
      now apply ohe_create_order.
    + exact Hdb.
  - intros i. unfold EventsApiRest.delete_event.
    destruct (EventService.get i db) eqn:Hget; [|exact Hdb].
    destruct (EventServiceRest.has_orders i db) eqn:Hhas; [exact Hdb|]. simpl.
    now apply ohe_service_delete.
  - intros i. now apply ohe_service_delete.
  - intros i. unfold EventsApiRest.publish_event.
    destruct (EventService.get i db); [|exact Hdb]. case_match; [exact Hdb|].
    eapply ohe_events_grow; [exact Hdb | apply update_orders | apply update_events_grow].
  - intros i. unfold EventsApiRest.cancel_event.
    destruct (EventService.get i db); [|exact Hdb]. case_match; [exact Hdb|].
    eapply ohe_events_grow; [exact Hdb | apply update_orders | apply update_events_grow].
Qed.

Lemma orders_keep_their_events_witness :
  orders_have_events (EventServiceRest.delete 1 (sample_db_with_order PAID None)).
Proof.
  apply (proj1 (proj2 (proj2
           (orders_keep_their_events (sample_db_with_order PAID None)
              ltac:(intros k o Hk; simpl in Hk;
                    apply lookup_singleton_Some in Hk as [<- <-];
                    vm_compute; eauto))))).
Defined.

Example delete_cascades :
  EventServiceRest.delete 1 (sample_db_with_order PAID None) = mkDB ∅ ∅ 2 2.
Proof. vm_compute. reflexivity. Qed.

(** ** Event life cycle *)

Lemma float_of_int_raises (n : Z) (e : exn) :
  float_of_int n = Raise e -> e = OverflowError "int too large to convert to float".
Proof. unfold float_of_int. destruct (PrimFloat.is_infinity _); congruence. Qed.

Lemma float_mul_int_ok (x : float) (n : Z) (f : float) :
  float_of_int n = Ok f -> float_mul_int x n = Ok (PrimFloat.mul x f).
Proof. unfold float_mul_int. now intros ->. Qed.

Lemma float_mul_int_raise (x : float) (n : Z) (e : exn) :
  float_of_int n = Raise e -> float_mul_int x n = Raise e.
Proof. unfold float_mul_int. now intros ->. Qed.

(** A request that passes the checks for a quantity beyond the floats: the
    product raises, in both halves, and nothing is written. *)
Lemma create_order_overflow (oc : OrderCreate.t) (u : User.t) (ev : Event.t)
    (db : DB) (e : exn) :
  OrdersCommon.create_order_checks oc db = Ok ev ->
  float_of_int (OrderCreate.quantity oc) = Raise e ->
  OrdersApi.create_order oc u db = (Raise e, db)
  /\ OrdersApiFirst.create_order oc u db = (Raise e, db).
Proof.
  intros Hchecks Hf. unfold OrdersApi.create_order, OrdersApiFirst.create_order.
  rewrite Hchecks. unfold OrderService.create.
  rewrite (float_mul_int_raise _ _ _ Hf).
  apply float_of_int_raises in Hf as ->. split; reflexivity.
Qed.

Lemma create_order_refused_when (oc : OrderCreate.t) (u : User.t) (db : DB) (e : exn) :
  OrdersCommon.create_order_checks oc db = Raise e ->
  OrdersApi.create_order oc u db = (Raise e, db)
  /\ OrdersApiFirst.create_order oc u db = (Raise e, db).
Proof.
  intros H. unfold OrdersApi.create_order, OrdersApiFirst.create_order. now rewrite H.
Qed.

(** X9. Cancelling an event freezes its sales and nothing else. On a stored
    event that is not canceled, [cancel_event] succeeds, changes only the
    event's [is_canceled] flag, and leaves orders, capacity and
    availability as they were; afterwards every reservation on the event
    returns [False], every order request for it is refused with a 400,
    a second [cancel_event] is refused with a 400, and tickets can still
    be released to it. *)
Theorem cancel_event_freezes_sales (event_id : Z) (e : Event.t) (db : DB) :
  EventService.get event_id db = Some e ->
  Event.id e = event_id ->
  truthy_bool (Event.is_canceled e) = false ->
  let e' := Event.mk (Event.id e) (Event.total_capacity e) (Event.available_tickets e)
                     (Event.ticket_price e) (Event.is_published e) (Some true) in
  let db' := save_event event_id e' db in
  EventsApiRest.cancel_event event_id db = (Ok e', db')
  /\ orders db' = orders db
  /\ (forall q, EventService.decrease_available_tickets event_id q db' = (false, db'))
  /\ (forall oc u,
        OrderCreate.event_id oc = event_id ->
        exists detail,
          OrdersApi.create_order oc u db' = (Raise (HTTPException 400 detail), db')
          /\ OrdersApiFirst.create_order oc u db' = (Raise (HTTPException 400 detail), db'))
  /\ EventsApiRest.cancel_event event_id db'
     = (Raise (HTTPException 400 "Event is already canceled"), db')
  /\ (forall q, fst (EventService.increase_available_tickets event_id q db') = true).
Proof.
  intros Hget Hid Hc e' db'.
  assert (Hget' : EventService.get event_id db' = Some e')
    by (unfold EventService.get, db', save_event; simpl; apply lookup_insert_eq).
  split; [|split; [|split; [|split; [|split]]]].
  - unfold EventsApiRest.cancel_event. rewrite Hget, Hc.
    unfold EventService.update. simpl. rewrite Hid. reflexivity.
  - reflexivity.
  - intros q. unfold EventService.decrease_available_tickets. now rewrite Hget'.
  - intros oc u Hoc.
    destruct (truthy_bool (Event.is_published e)) eqn:Hp.
    + exists "Cannot order tickets for canceled events".
      apply create_order_refused_when.
      unfold OrdersCommon.create_order_checks. rewrite Hoc, Hget'. simpl. now rewrite Hp.
    + exists "Cannot order tickets for unpublished events".
      apply create_order_refused_when.
      unfold OrdersCommon.create_order_checks. rewrite Hoc, Hget'. simpl. now rewrite Hp.
  - unfold EventsApiRest.cancel_event. now rewrite Hget'.
  - intros q. unfold EventService.increase_available_tickets. now rewrite Hget'.
Qed.

Lemma cancel_event_freezes_sales_witness :
  EventsApiRest.cancel_event 1 (sample_db_with_order PAID None)
  = (Ok (Event.mk 1 10 7 100 (Some true) (Some true)),
     save_event 1 (Event.mk 1 10 7 100 (Some true) (Some true))
       (sample_db_with_order PAID None)).
Proof.
  apply (proj1 (cancel_event_freezes_sales 1 (sample_event 10 7)
                  (sample_db_with_order PAID None) eq_refl eq_refl eq_refl)).
Defined.

(** X8. From creation to sale. An event created unpublished is stored under the
    next key with all of its capacity available; while it is unpublished
    every order request for it is refused with a 400 and changes nothing;
    [publish_event] then succeeds, a second one is refused, and after it a
    request for a quantity up to the capacity is granted and lowers the
    availability by that quantity, unless the quantity is beyond the
    floats: then the amount cannot be computed, the request raises
    [OverflowError] and changes nothing. *)
Theorem created_event_sells_after_publish (ec : EventCreate.t) (db : DB) :
  EventCreate.is_published ec = false ->
  let i := next_event_id db in
  let ev := fst (EventService.create ec db) in
  let db1 := snd (EventService.create ec db) in
  let ev' := Event.mk i (EventCreate.total_capacity ec) (EventCreate.total_capacity ec)
                      (EventCreate.ticket_price ec) (Some true) (Some false) in
  let db2 := save_event i ev' db1 in
  EventService.get i db1 = Some ev
  /\ Event.available_tickets ev = EventCreate.total_capacity ec
  /\ (forall oc u,
        OrderCreate.event_id oc = i ->
        OrdersApi.create_order oc u db1
        = (Raise (HTTPException 400 "Cannot order tickets for unpublished events"), db1))
  /\ EventsApiRest.publish_event i db1 = (Ok ev', db2)
  /\ EventsApiRest.publish_event i db2
     = (Raise (HTTPException 400 "Event is already published"), db2)
  /\ (forall oc u,
        OrderCreate.event_id oc = i ->
        OrderCreate.quantity oc <= EventCreate.total_capacity ec ->
        (forall f,
           float_of_int (OrderCreate.quantity oc) = Ok f ->
           exists order,
             fst (OrdersApi.create_order oc u db2) = Ok order
             /\ Order.quantity order = OrderCreate.quantity oc
             /\ (Event.available_tickets
                   <$> events (snd (OrdersApi.create_order oc u db2)) !! i)
                = Some (EventCreate.total_capacity ec - OrderCreate.quantity oc))
        /\ (forall e,
              float_of_int (OrderCreate.quantity oc) = Raise e ->
              OrdersApi.create_order oc u db2
              = (Raise (OverflowError "int too large to convert to float"), db2))).
Proof.
  intros Hpub i ev db1 ev' db2.
  assert (Hget1 : EventService.get i db1 = Some ev)
    by (unfold EventService.get, db1, ev; simpl; apply lookup_insert_eq).
  assert (Hget2 : EventService.get i db2 = Some ev')
    by (unfold EventService.get, db2, save_event; simpl; apply lookup_insert_eq).
  split; [exact Hget1|]. split; [reflexivity|].
  split; [|split; [|split]].
  - intros oc u Hoc. apply create_order_refused_when.
    unfold OrdersCommon.create_order_checks. rewrite Hoc, Hget1.
    subst ev. simpl. now rewrite Hpub.
  - unfold EventsApiRest.publish_event. rewrite Hget1. subst ev. simpl. rewrite Hpub.
    reflexivity.
  - unfold EventsApiRest.publish_event. now rewrite Hget2.
  - intros oc u Hoc Hq.
    assert (Hchecks : OrdersCommon.create_order_checks oc db2 = Ok ev').
    { unfold OrdersCommon.create_order_checks. rewrite Hoc, Hget2. simpl.
      destruct (Z.ltb_spec (EventCreate.total_capacity ec) (OrderCreate.quantity oc));
        [lia | reflexivity]. }
    split.
    + intros f Hf.
      destruct (create_order_endpoint oc u db2)
        as [(e & Hraise & _) | (order & event & Hok & _ & _ & Hqty & _ & Hev & Hevs)].
      * exfalso. unfold OrdersApi.create_order in Hraise. rewrite Hchecks in Hraise.
        unfold OrderService.create in Hraise.
        rewrite (float_mul_int_ok _ _ _ Hf), Hoc in Hraise.
        rewrite (decrease_frame i (OrderCreate.quantity oc) db2) in Hraise.
        unfold EventService.get in Hget2.
        rewrite (decrease_succeeds i (OrderCreate.quantity oc) ev' db2 Hget2 eq_refl
                   ltac:(simpl; lia)) in Hraise.
        simpl in Hraise. discriminate.
      * exists order. split; [exact Hok|]. split; [exact Hqty|].
        rewrite Hevs, Hoc, lookup_insert_eq. simpl.
        rewrite Hoc in Hev. unfold EventService.get in Hget2. rewrite Hget2 in Hev.
        simplify_eq. reflexivity.
    + intros e He.
      pose proof (float_of_int_raises _ _ He) as ->.
      apply (create_order_overflow oc u ev' db2 _ Hchecks He).
Qed.

Lemma created_event_sells_after_publish_witness :
  EventsApiRest.publish_event 2
    (snd (EventService.create (EventCreate.mk 50 20 false) (sample_db 10 10)))
  = (Ok (Event.mk 2 50 50 20 (Some true) (Some false)),
     save_event 2 (Event.mk 2 50 50 20 (Some true) (Some false))
       (snd (EventService.create (EventCreate.mk 50 20 false) (sample_db 10 10)))).
Proof.
  apply (proj1 (proj2 (proj2 (proj2
           (created_event_sells_after_publish (EventCreate.mk 50 20 false)
              (sample_db 10 10) eq_refl))))).
Defined.

(** An event of 2^1024 tickets, published, and a request for all of them:
    the checks pass and the product [ticket_price * quantity] raises. *)
Example order_beyond_floats :
  OrdersApi.create_order (OrderCreate.mk 1 (2 ^ 1024) "credit_card") alice
    (sample_db (2 ^ 1024) (2 ^ 1024))
  = (Raise (OverflowError "int too large to convert to float"),
     sample_db (2 ^ 1024) (2 ^ 1024)).
Proof. vm_compute. reflexivity. Qed.

(** X10. Deleting an event through the endpoint: refused with a 400 while any
    order refers to the event, a 404 when the event is missing, and
    otherwise the event is removed while every order and every other event
    stays; in the two refusals the store is left as it was. *)
Theorem delete_event_spares_orders (event_id : Z) (db : DB) :
  (EventService.get event_id db = None ->
   EventsApiRest.delete_event event_id db
   = (Raise (HTTPException 404 "Event not found"), db))
  /\ (is_Some (EventService.get event_id db) ->
      (exists k o, orders db !! k = Some o /\ Order.event_id o = event_id) ->
      EventsApiRest.delete_event event_id db
      = (Raise (HTTPException 400
                  "Cannot delete an event with existing orders. Consider canceling it instead."),
         db))
  /\ (is_Some (EventService.get event_id db) ->
      (forall k o, orders db !! k = Some o -> Order.event_id o <> event_id) ->
      EventsApiRest.delete_event event_id db
      = (Ok tt, with_events db (base.delete event_id (events db)))).
Proof.
  unfold EventsApiRest.delete_event. split; [|split].
  - intros ->. reflexivity.
  - intros [e ->] Hex.
    assert (EventServiceRest.has_orders event_id db = true) as ->; [|reflexivity].
    unfold EventServiceRest.has_orders. apply bool_decide_eq_true. exact Hex.
  - intros [e He] Hall. rewrite He.
    assert (EventServiceRest.has_orders event_id db = false) as ->.
    { unfold EventServiceRest.has_orders. apply bool_decide_eq_false.
      intros (k & o & Hk & Heq). exact (Hall k o Hk Heq). }
    unfold EventServiceRest.delete. rewrite He. unfold with_events. f_equal. f_equal.
    apply map_filter_id. intros k o Hk. simpl. eauto.
Qed.

(** ** Order requests *)

Lemma create_order_granted (oc : OrderCreate.t) (u : User.t) (e : Event.t) (f : float)
    (db : DB) :
  EventService.get (OrderCreate.event_id oc) db = Some e ->
  truthy_bool (Event.is_published e) = true ->
  truthy_bool (Event.is_canceled e) = false ->
  OrderCreate.quantity oc <= Event.available_tickets e ->
  float_of_int (OrderCreate.quantity oc) = Ok f ->
  let order :=
    Order.mk (next_order_id db) (User.id u) (OrderCreate.event_id oc)
             (OrderCreate.quantity oc) (Event.ticket_price e)
             (PrimFloat.mul (Event.ticket_price e) f)
             PENDING None (Some (OrderCreate.payment_method oc)) None in
  let db' :=
    mkDB (<[OrderCreate.event_id oc :=
              Event.with_available_tickets e
                (Event.available_tickets e - OrderCreate.quantity oc)]> (events db))
         (<[next_order_id db := order]> (orders db))
         (next_event_id db) (next_order_id db + 1) in
  OrdersApi.create_order oc u db = (Ok order, db')
  /\ OrdersApiFirst.create_order oc u db = (Ok order, db').
Proof.
  intros Hget Hp Hc Hq Hf. simpl.
  unfold OrdersApi.create_order, OrdersApiFirst.create_order,
    OrdersCommon.create_order_checks.
  rewrite Hget, Hp, Hc. simpl.
  destruct (Z.ltb_spec (Event.available_tickets e) (OrderCreate.quantity oc)); [lia|].
  unfold OrderService.create. rewrite (float_mul_int_ok _ _ _ Hf).
  rewrite (decrease_frame (OrderCreate.event_id oc) (OrderCreate.quantity oc) db).
  unfold EventService.get in Hget.
  rewrite (decrease_succeeds _ _ e db Hget Hc Hq). simpl. split; reflexivity.
Qed.

Lemma create_order_checks_pass (oc : OrderCreate.t) (e : Event.t) (db : DB) :
  EventService.get (OrderCreate.event_id oc) db = Some e ->
  truthy_bool (Event.is_published e) = true ->
  truthy_bool (Event.is_canceled e) = false ->
  OrderCreate.quantity oc <= Event.available_tickets e ->
  OrdersCommon.create_order_checks oc db = Ok e.
Proof.
  intros Hget Hp Hc Hq. unfold OrdersCommon.create_order_checks.
  rewrite Hget, Hp, Hc. simpl.
  destruct (Z.ltb_spec (Event.available_tickets e) (OrderCreate.quantity oc));
    [lia | reflexivity].
Qed.

(** X11. What an order request gets, in both halves of [orders.py]: 404 for a
    missing event; 400 for an event that is unpublished, canceled or short
    of tickets, the store left as it was; and otherwise a PENDING order for
    the caller, with the event's ticket price as unit price and the float
    product of that price and the quantity as total amount, stored under
    the next order key next to the orders that were there, while the row
    of the event has its [available_tickets] lower by the quantity and
    nothing else changed. A quantity beyond the floats, for which the
    product cannot be computed, raises [OverflowError] instead and leaves
    the store as it was. *)
Theorem create_order_request (oc : OrderCreate.t) (u : User.t) (db : DB) :
  let i := OrderCreate.event_id oc in
  let q := OrderCreate.quantity oc in
  (EventService.get i db = None ->
   OrdersApi.create_order oc u db = (Raise (HTTPException 404 "Event not found"), db)
   /\ OrdersApiFirst.create_order oc u db
      = (Raise (HTTPException 404 "Event not found"), db))
  /\ (forall e,
        EventService.get i db = Some e ->
        truthy_bool (Event.is_published e) = false
        \/ truthy_bool (Event.is_canceled e) = true
        \/ Event.available_tickets e < q ->
        exists detail,
          OrdersApi.create_order oc u db = (Raise (HTTPException 400 detail), db)
          /\ OrdersApiFirst.create_order oc u db = (Raise (HTTPException 400 detail), db))
  /\ (forall e,
        EventService.get i db = Some e ->
        truthy_bool (Event.is_published e) = true ->
        truthy_bool (Event.is_canceled e) = false ->
        q <= Event.available_tickets e ->
        (forall f,
           float_of_int q = Ok f ->
           exists order e' db',
             OrdersApi.create_order oc u db = (Ok order, db')
             /\ OrdersApiFirst.create_order oc u db = (Ok order, db')
             /\ Order.id order = next_order_id db
             /\ Order.user_id order = User.id u
             /\ Order.event_id order = i
             /\ Order.quantity order = q
             /\ Order.unit_price order = Event.ticket_price e
             /\ Order.total_amount order = PrimFloat.mul (Event.ticket_price e) f
             /\ Order.status order = PENDING
             /\ Order.payment_id order = None
             /\ Order.payment_method order = Some (OrderCreate.payment_method oc)
             /\ Order.paid_at order = None
             /\ orders db' !! next_order_id db = Some order
             /\ (forall k, k <> next_order_id db -> orders db' !! k = orders db !! k)
             /\ next_order_id db' = next_order_id db + 1
             /\ next_event_id db' = next_event_id db
             /\ events db' !! i = Some e'
             /\ Event.available_tickets e' = Event.available_tickets e - q
             /\ same_event_but_available e e'
             /\ (forall k, k <> i -> events db' !! k = events db !! k))
        /\ (forall x,
              float_of_int q = Raise x ->
              OrdersApi.create_order oc u db = (Raise x, db)
              /\ OrdersApiFirst.create_order oc u db = (Raise x, db))).
Proof.
  intros i q. subst i q. split; [|split].
  - intros Hget. apply create_order_refused_when.
    unfold OrdersCommon.create_order_checks. now rewrite Hget.
  - intros e Hget Hbad.
    destruct (truthy_bool (Event.is_published e)) eqn:Hp.
    + destruct (truthy_bool (Event.is_canceled e)) eqn:Hc.
      * eexists. apply create_order_refused_when.
        unfold OrdersCommon.create_order_checks. rewrite Hget, Hp, Hc. reflexivity.
      * destruct Hbad as [?|[?|Hlt]]; try discriminate.
        eexists. apply create_order_refused_when.
        unfold OrdersCommon.create_order_checks. rewrite Hget, Hp, Hc. simpl.
        apply Z.ltb_lt in Hlt. rewrite Hlt. reflexivity.
    + eexists. apply create_order_refused_when.
      unfold OrdersCommon.create_order_checks. rewrite Hget, Hp. reflexivity.
  - intros e Hget Hp Hc Hq. split.
    + intros f Hf.
      destruct (create_order_granted oc u e f db Hget Hp Hc Hq Hf) as [H1 H2].
      eexists. eexists. eexists.
      split; [exact H1|]. split; [exact H2|].
      do 10 (split; [reflexivity|]).
      split; [apply lookup_insert_eq|].
      split; [intros k Hk; simpl; rewrite lookup_insert_ne by congruence; reflexivity|].
      split; [reflexivity|]. split; [reflexivity|].
      split; [apply lookup_insert_eq|].
      split; [destruct e; reflexivity|].
      split; [apply with_available_tickets_same|].
      intros k Hk. simpl. rewrite lookup_insert_ne by congruence. reflexivity.
    + intros x Hx.
      apply (create_order_overflow oc u e db x); [|exact Hx].
      now apply create_order_checks_pass.
Qed.

(** Three tickets at 0.1 on an event with 10 left: the order is stored
    with a total of 0.30000000000000004 and 7 tickets are left. *)
Lemma create_order_request_witness :
  exists order e' db',
    OrdersApi.create_order (OrderCreate.mk 1 3 "credit_card") alice
      (mkDB {[ 1 := Event.mk 1 10 10 0.1 (Some true) (Some false) ]} ∅ 2 1)
    = (Ok order, db')
    /\ Order.total_amount order = 0.30000000000000004%float
    /\ orders db' !! 1 = Some order
    /\ events db' !! 1 = Some e'
    /\ Event.available_tickets e' = 7.
Proof.
  pose proof (proj1
    (proj2 (proj2 (create_order_request (OrderCreate.mk 1 3 "credit_card") alice
                     (mkDB {[ 1 := Event.mk 1 10 10 0.1 (Some true) (Some false) ]}
                           ∅ 2 1)))
       (Event.mk 1 10 10 0.1 (Some true) (Some false))
       eq_refl eq_refl eq_refl ltac:(simpl; lia)) 3%float eq_refl) as H.
  destruct H as (order & e' & db' & H1 & _ & _ & _ & _ & _ & _ & Ht & _ & _ & _ & _
                 & Ho & _ & _ & _ & He & Ha & _).
  exists order, e', db'. split; [exact H1|]. split; [exact Ht|].
  split; [exact Ho|]. split; [exact He | exact Ha].
Defined.

(** ** Payment processing *)

(** X16. Payment processing never touches the inventory: whatever the request,
    the caller and the outcome, both [process_payment] endpoints and
    [OrderService.update_status] leave the [events] table as it was. *)
Theorem process_payment_keeps_inventory (order_id : Z) (pd : PaymentProcess.t)
    (u : User.t) (now : Z) (hex : string) (st : OrderStatus) (pid : option string)
    (db : DB) :
  events (snd (OrdersApi.process_payment order_id pd u now hex db)) = events db
  /\ events (snd (OrdersApiFirst.process_payment order_id pd u now hex db)) = events db
  /\ events (snd (OrderService.update_status order_id st pid now db)) = events db.
Proof.
  unfold OrdersApi.process_payment, OrdersApiFirst.process_payment.
  rewrite !process_payment_raises, update_status_raises. repeat split.
Qed.

(** ** Tickets held and tickets available *)

Lemma held_step (i : Z) (k : Z) (o : Order.t) (acc : Z) :
  (if holds_tickets o && (Order.event_id o =? i) then Order.quantity o + acc else acc)
  = held_by i o + acc.
Proof. unfold held_by. destruct (holds_tickets o && (Order.event_id o =? i)); lia. Qed.

Lemma held_insert_fresh (i k : Z) (o : Order.t) (m : gmap Z Order.t) :
  m !! k = None -> held i (<[k := o]> m) = held_by i o + held i m.
Proof.
  intros Hk. unfold held. rewrite map_fold_insert_L; [apply (held_step i k)| |exact Hk].
  intros j1 j2 z1 z2 y _ _ _. cbv beta.
  destruct (holds_tickets z1 && (Order.event_id z1 =? i)),
    (holds_tickets z2 && (Order.event_id z2 =? i)); lia.
Qed.

Lemma held_update (i k : Z) (o o' : Order.t) (m : gmap Z Order.t) :
  m !! k = Some o -> held i (<[k := o']> m) = held i m - held_by i o + held_by i o'.
Proof.
  intros Hk.
  rewrite <- (insert_delete_eq m k o').
  rewrite held_insert_fresh by apply lookup_delete_eq.
  rewrite <- (insert_delete_id m k o Hk) at 2.
  rewrite held_insert_fresh by apply lookup_delete_eq. lia.
Qed.

(** X7. Tickets are conserved. In a well-formed store, write [held] for the
    tickets of an event held by its PENDING and PAID orders. An order
    request that passes the checks, a cancel request for a PENDING or PAID
    order (when the event has room for the tickets coming back), and a
    payment request on an order that is not REFUNDED all leave
    [available_tickets + held] of the event as it was; the first two keep
    the capacity too. *)
Theorem tickets_are_conserved (db : DB) :
  db_wf db ->
  (forall oc u e,
     EventService.get (OrderCreate.event_id oc) db = Some e ->
     truthy_bool (Event.is_published e) = true ->
     truthy_bool (Event.is_canceled e) = false ->
     OrderCreate.quantity oc <= Event.available_tickets e ->
     let db' := snd (OrdersApi.create_order oc u db) in
     exists e',
       EventService.get (OrderCreate.event_id oc) db' = Some e'
       /\ Event.total_capacity e' = Event.total_capacity e
       /\ Event.available_tickets e' + held (OrderCreate.event_id oc) (orders db')
          = Event.available_tickets e + held (OrderCreate.event_id oc) (orders db))
  /\ (forall k u o e,
        orders db !! k = Some o ->
        holds_tickets o = true ->
        not_permitted o u = false ->
        EventService.get (Order.event_id o) db = Some e ->
        Event.available_tickets e + Order.quantity o <= Event.total_capacity e ->
        let db' := snd (OrdersApi.cancel_order k u db) in
        exists e',
          EventService.get (Order.event_id o) db' = Some e'
          /\ Event.total_capacity e' = Event.total_capacity e
          /\ Event.available_tickets e' + held (Order.event_id o) (orders db')
             = Event.available_tickets e + held (Order.event_id o) (orders db))
  /\ (forall k pd u now hex o i,
        orders db !! k = Some o ->
        Order.status o <> REFUNDED ->
        held i (orders (snd (OrdersApi.process_payment k pd u now hex db)))
        = held i (orders db)).
Proof.
  intros [[Hke Hko] [Hie Hio]]. split; [|split].
  - intros oc u e Hget Hp Hc Hq db'. subst db'.
    destruct (float_of_int (OrderCreate.quantity oc)) as [f|x] eqn:Hf.
    + destruct (create_order_granted oc u e f db Hget Hp Hc Hq Hf) as [-> _]. simpl.
      eexists. split; [unfold EventService.get; simpl; apply lookup_insert_eq|].
      split; [destruct e; reflexivity|].
      rewrite held_insert_fresh.
      * unfold held_by. simpl. rewrite Z.eqb_refl. destruct e; simpl. lia.
      * destruct (orders db !! next_order_id db) eqn:Hn; [|reflexivity].
        specialize (Hko _ _ Hn). lia.
    + destruct (create_order_overflow oc u e db x
                  (create_order_checks_pass oc e db Hget Hp Hc Hq) Hf) as [-> _].
      simpl. exists e. auto.
  - intros k u o e Hget Hholds Hperm Hev Hroom db'. subst db'.
    unfold OrdersApi.cancel_order. rewrite cancel_order_store. simpl.
    exists e. auto.
  - intros k pd u now hex o i Hget Hst.
    unfold OrdersApi.process_payment. rewrite process_payment_raises. reflexivity.
Qed.

Lemma tickets_are_conserved_witness :
  exists e',
    EventService.get 1
      (snd (OrdersApi.create_order (OrderCreate.mk 1 2 "credit_card") alice
              (sample_db_with_order PENDING None)))
    = Some e'
    /\ Event.total_capacity e' = Event.total_capacity (sample_event 10 7)
    /\ Event.available_tickets e'
       + held 1 (orders (snd (OrdersApi.create_order (OrderCreate.mk 1 2 "credit_card")
                                alice (sample_db_with_order PENDING None))))
       = Event.available_tickets (sample_event 10 7)
         + held 1 (orders (sample_db_with_order PENDING None)).
Proof.
  apply (proj1
           (tickets_are_conserved (sample_db_with_order PENDING None)
              ltac:(repeat split; simpl; intros k x Hk;
                    apply lookup_singleton_Some in Hk as [<- <-];
                    simpl; lia || reflexivity))
           (OrderCreate.mk 1 2 "credit_card") alice (sample_event 10 7)).
  - vm_compute. reflexivity.
  - reflexivity.
  - reflexivity.
  - simpl. lia.
Defined.

Example held_sample : held 1 (orders (sample_db_with_order PAID None)) = 3.
Proof. vm_compute. reflexivity. Qed.

Example held_after_order :
  held 1 (orders (snd (OrdersApi.create_order (OrderCreate.mk 1 2 "credit_card") alice
                         (sample_db_with_order PENDING None)))) = 5.
Proof. vm_compute. reflexivity. Qed.

(** ** The payment gateway in use *)

Lemma validate_credit_card_complete (d : PaymentDetails.t) :
  card_well_formed d ->
  (exists year, PaymentDetails.card_exp_year d = Some year /\ 2000 <= year <= 2100) ->
  PaymentService._validate_credit_card d = true.
Proof.
  intros (number & month & year & cvc & Hn & Hm & Hy & Hc & Hn0 & Hm0 & Hy0 & Hc0
          & Hd & Hlen & Hmonth & Hcd & Hclen) (year' & Hy' & Hrange).
  rewrite Hy in Hy'. simplify_eq.
  unfold PaymentService._validate_credit_card. rewrite Hn, Hm, Hy, Hc.
  assert (truthy_str (Some number) = true) as -> by (destruct number; [done|reflexivity]).
  assert (truthy_str (Some cvc) = true) as -> by (destruct cvc; [done|reflexivity]).
  assert (truthy_int (Some month) = true) as ->
    by (simpl; destruct (Z.eqb_spec month 0); [done|reflexivity]).
  assert (truthy_int (Some year') = true) as ->
    by (simpl; destruct (Z.eqb_spec year' 0); [done|reflexivity]).
  simpl. rewrite Hd, Hcd. simpl.
  destruct (Z.leb_spec 13 (len (remove_char "-" (remove_char " " number)))); [|lia].
  destruct (Z.leb_spec (len (remove_char "-" (remove_char " " number))) 19); [|lia].
  destruct (Z.leb_spec 1 month); [|lia].
  destruct (Z.leb_spec month 12); [|lia].
  destruct (Z.leb_spec 2000 year'); [|lia].
  destruct (Z.leb_spec year' 2100); [|lia]. simpl.
  destruct (Z.leb_spec 3 (len cvc)); [|lia].
  destruct (Z.leb_spec (len cvc) 4); [|lia]. reflexivity.
Qed.

(** X18. When the gateway in use takes a payment. With method [credit_card]
    it succeeds exactly when the card details are well formed (four fields
    present, 13 to 19 digits once spaces and dashes are removed, month 1 to
    12, cvc of 3 or 4 digits) and the year is from 2000 to 2100; with any
    other method it succeeds whatever the details. A success carries the
    payment id [payment_] followed by ten characters of the draw, a failure
    carries no payment id. *)
Theorem gateway_takes_payment (amount : float) (payment_method : string)
    (d : PaymentDetails.t) (hex : string) :
  let r := PaymentService.process_payment amount payment_method d hex in
  (payment_method = "credit_card" ->
   (PaymentResult.success r = true
    <-> card_well_formed d
        /\ exists year, PaymentDetails.card_exp_year d = Some year /\ 2000 <= year <= 2100))
  /\ (payment_method <> "credit_card" -> PaymentResult.success r = true)
  /\ (PaymentResult.success r = true ->
      PaymentResult.payment_id r = Some ("payment_" +:+ String.substring 0 10 hex)
      /\ PaymentResult.error r = None)
  /\ (PaymentResult.success r = false ->
      PaymentResult.payment_id r = None
      /\ PaymentResult.error r = Some "Invalid credit card details").
Proof.
  simpl. unfold PaymentService.process_payment. split; [|split; [|split]].
  - intros ->. simpl.
    destruct (PaymentService._validate_credit_card d) eqn:Hv; simpl.
    + split; [intros _; now apply validate_credit_card_accepts | reflexivity].
    + split; [discriminate|]. intros [Hwf Hy].
      rewrite (validate_credit_card_complete d Hwf Hy) in Hv. discriminate.
  - intros Hne. apply String.eqb_neq in Hne. rewrite Hne. reflexivity.
  - destruct (_ && _); simpl; [discriminate | auto].
  - destruct (_ && _); simpl; [auto | discriminate].
Qed.

(** ** The first gateway class *)

(** X19. When the first [PaymentService] class takes a card payment, at a given
    current year and month: validation passes exactly for the cards that
    are well formed and not expired; a payment id ([pay_] and sixteen
    characters of the draw) is attached exactly when validation passes,
    on a decline too; and the payment succeeds exactly when validation
    passes and the second draw is not a multiple of 10. *)
Theorem first_gateway_takes_card (amount : float) (d : PaymentDetails.t)
    (current_year current_month : Z) (hex : string) (draw : Z) :
  let r := PaymentServiceFirst.process_payment amount "credit_card" d
             current_year current_month hex draw in
  let passes := card_well_formed d /\ not_expired d current_year current_month in
  (PaymentResult.payment_id r = Some ("pay_" +:+ String.substring 0 16 hex) <-> passes)
  /\ (PaymentResult.payment_id r = None <-> ~ passes)
  /\ (PaymentResult.success r = true <-> passes /\ draw mod 10 <> 0)
  /\ (passes -> draw mod 10 = 0 ->
      PaymentResult.error r = Some "Payment declined by issuer").
Proof.
  simpl. unfold PaymentServiceFirst.process_payment,
    PaymentServiceFirst._validate_payment_details. simpl.
  pose proof (first_validate_credit_card_accepts d current_year current_month) as Hiff.
  destruct (PaymentServiceFirst.valid
              (PaymentServiceFirst._validate_credit_card d current_year current_month))
    eqn:Hv; simpl.
  - assert (Hp : card_well_formed d /\ not_expired d current_year current_month)
      by (apply Hiff; reflexivity).
    destruct (Z.eqb_spec (draw mod 10) 0) as [Hz|Hz]; simpl;
      repeat split; try tauto; try discriminate; try congruence; intros; tauto.
  - assert (Hp : ~ (card_well_formed d /\ not_expired d current_year current_month))
      by (intros H; apply Hiff in H; discriminate).
    repeat split; try tauto; try discriminate; intros; tauto.
Qed.

(** ** The retry wrapper *)

Lemma delay_at_shift (delay backoff : float) (j : nat) :
  map (Retry.delay_at delay backoff) (seq 1 j)
  = map (Retry.delay_at (PrimFloat.mul delay backoff) backoff) (seq 0 j).
Proof.
  rewrite <- seq_shift, map_map. apply map_ext. intros k. reflexivity.
Qed.

(** The loop through [j] caught failures, each followed by a sleep that
    returns. *)
Lemma retry_loop_rounds {A} (func : nat -> result A) (catches : exn -> bool)
    (sleep : float -> result unit) (backoff : float) (j : nat) :
  forall (retries call : nat) (mdelay : float) (slept : list float),
    (forall i, (i < j)%nat -> Retry.caught catches (func (call + i)%nat) = true) ->
    (forall i, (i < j)%nat -> sleep (Retry.delay_at mdelay backoff i) = Ok tt) ->
    Retry.loop func catches sleep backoff (j + retries) call mdelay slept
    = Retry.loop func catches sleep backoff retries (call + j)
        (Retry.delay_at mdelay backoff j)
        (slept ++ map (Retry.delay_at mdelay backoff) (seq 0 j)).
Proof.
  induction j as [|j IH]; intros retries call mdelay slept Hbefore Hsleep.
  - simpl. now rewrite Nat.add_0_r, app_nil_r.
  - pose proof (Hbefore O (Nat.lt_0_succ j)) as H0. rewrite Nat.add_0_r in H0.
    pose proof (Hsleep O (Nat.lt_0_succ j)) as S0. simpl in S0.
    unfold Retry.caught in H0. simpl.
    destruct (func call) as [v|e] eqn:Hcall; [discriminate|]. rewrite H0, S0.
    rewrite (IH retries (S call) (PrimFloat.mul mdelay backoff) (slept ++ [mdelay])%list).
    + rewrite <- Nat.add_succ_comm. f_equal.
      rewrite <- app_assoc. f_equal. simpl. f_equal. symmetry. apply delay_at_shift.
    + intros i Hi. rewrite Nat.add_succ_comm. apply Hbefore. lia.
    + intros i Hi. apply (Hsleep (S i)). lia.
Qed.

Lemma retry_loop_bounds {A} (func : nat -> result A) (catches : exn -> bool)
    (sleep : float -> result unit) (backoff : float) (retries : nat) :
  forall (call : nat) (mdelay : float) (slept : list float),
    let r := Retry.loop func catches sleep backoff retries call mdelay slept in
    (call < Retry.calls r <= S (call + retries))%nat
    /\ (length (Retry.sleeps r) + S call = length slept + Retry.calls r)%nat.
Proof.
  induction retries as [|n IH]; intros call mdelay slept; simpl.
  - lia.
  - destruct (func call) as [v|e]; simpl; [lia|].
    destruct (catches e); simpl; [|lia].
    destruct (sleep mdelay) as [[]|e']; simpl; [|lia].
    specialize (IH (S call) (PrimFloat.mul mdelay backoff) (slept ++ [mdelay])%list).
    simpl in IH. rewrite length_app in IH. simpl in IH. lia.
Qed.

(** X20. What a retried call returns. Say the first [j] calls raise a caught
    exception and the sleep after each of them returns, [j] being at most
    the number of retries ([max_attempts - 1], or 0 when [max_attempts] is
    below 1); the delays slept are [delay], then [delay * backoff], and so
    on, in floats. If call [j] is the last one allowed, or does not raise a
    caught exception, the wrapper makes [j + 1] calls and returns or
    raises what call [j] does. If call [j] raises a caught exception, is
    not the last one allowed, and the sleep that follows raises (as
    [time.sleep] does for a negative delay), the wrapper raises what the
    sleep raised, after [j + 1] calls: the exception leaves the [except]
    clause and no further call is made. *)
Theorem retry_outcome {A} (max_attempts : Z) (delay backoff : float)
    (catches : exn -> bool) (sleep : float -> result unit)
    (func : nat -> result A) (j : nat) :
  (j <= Z.to_nat (max_attempts - 1))%nat ->
  (forall i, (i < j)%nat -> Retry.caught catches (func i) = true) ->
  (forall i, (i < j)%nat -> sleep (Retry.delay_at delay backoff i) = Ok tt) ->
  (j = Z.to_nat (max_attempts - 1) \/ Retry.caught catches (func j) = false ->
   Retry.wrapper max_attempts delay backoff catches sleep func
   = Retry.mkRun (func j) (S j) (map (Retry.delay_at delay backoff) (seq 0 j)))
  /\ (forall e,
        (j < Z.to_nat (max_attempts - 1))%nat ->
        Retry.caught catches (func j) = true ->
        sleep (Retry.delay_at delay backoff j) = Raise e ->
        Retry.wrapper max_attempts delay backoff catches sleep func
        = Retry.mkRun (Raise e) (S j) (map (Retry.delay_at delay backoff) (seq 0 j))).
Proof.
  intros Hj Hbefore Hsleep. unfold Retry.wrapper.
  replace (Z.to_nat (max_attempts - 1))
    with (j + (Z.to_nat (max_attempts - 1) - j))%nat by lia.
  rewrite (retry_loop_rounds func catches sleep backoff j _ O delay [] Hbefore Hsleep).
  simpl. split.
  - intros Hstop.
    destruct (Z.to_nat (max_attempts - 1) - j)%nat as [|n] eqn:Hn; simpl; [reflexivity|].
    destruct Hstop as [Hstop|Hstop]; [lia|].
    unfold Retry.caught in Hstop.
    destruct (func j) as [v|e]; [reflexivity|]. now rewrite Hstop.
  - intros e Hlt Hcaught Hraise.
    destruct (Z.to_nat (max_attempts - 1) - j)%nat as [|n] eqn:Hn; [lia|]. simpl.
    unfold Retry.caught in Hcaught.
    destruct (func j) as [v|e0]; [discriminate|]. now rewrite Hcaught, Hraise.
Qed.

(** Two failures, then success, with the defaults (3 attempts, delay 2,
    backoff 2): three calls, sleeps of 2 and 4. *)
Lemma retry_outcome_witness :
  Retry.wrapper 3 2 2 (fun _ => true) Retry.sleep_nonnegative
    (fun n => if (n <? 2)%nat then Raise (ValueError "down") else Ok n)
  = Retry.mkRun (Ok 2%nat) 3 [2%float; 4%float].
Proof.
  apply (proj1 (retry_outcome 3 2 2 (fun _ => true) Retry.sleep_nonnegative
                  (fun n => if (n <? 2)%nat then Raise (ValueError "down") else Ok n) 2
                  ltac:(vm_compute; lia)
                  ltac:(intros i Hi; destruct i as [|[|i]];
                        [reflexivity | reflexivity | lia])
                  ltac:(intros i Hi; destruct i as [|[|i]];
                        [reflexivity | reflexivity | lia]))).
  left. reflexivity.
Defined.

(** A negative delay: the first failure is followed by a sleep that
    raises, and the function is not called again. *)
Example retry_negative_delay :
  Retry.wrapper 3 (-1) 2 (fun _ => true) Retry.sleep_nonnegative
    (fun n => if (n <? 2)%nat then Raise (ValueError "down") else Ok n)
  = Retry.mkRun (Raise (ValueError "sleep length must be non-negative")) 1 [].
Proof. vm_compute. reflexivity. Qed.

(** X21. How much a retried call costs, whatever the function and the sleeps
    do: at least one call and at most [max(1, max_attempts)], one sleep
    fewer than calls; with [max_attempts] of 1 or less (0 and negative
    included) the function is called exactly once, with no sleep, and its
    outcome is the wrapper's. *)
Theorem retry_bounds {A} (max_attempts : Z) (delay backoff : float)
    (catches : exn -> bool) (sleep : float -> result unit) (func : nat -> result A) :
  let r := Retry.wrapper max_attempts delay backoff catches sleep func in
  1 <= Z.of_nat (Retry.calls r) <= Z.max 1 max_attempts
  /\ S (length (Retry.sleeps r)) = Retry.calls r
  /\ (max_attempts <= 1 -> r = Retry.mkRun (func O) 1 []).
Proof.
  simpl. unfold Retry.wrapper.
  pose proof (retry_loop_bounds func catches sleep backoff (Z.to_nat (max_attempts - 1))
                O delay []) as [Hc Hs].
  simpl in Hc, Hs. split; [lia|]. split; [lia|].
  intros Hle. replace (Z.to_nat (max_attempts - 1)) with O by lia. reflexivity.
Qed.

(** ** Batch notifications *)

Lemma batch_fold (send : string -> result bool) (emails : list string) :
  forall r : NotificationService.results,
    let r' := fold_left (NotificationService.step send) emails r in
    NotificationService.total r' = NotificationService.total r
    /\ NotificationService.successful r' + NotificationService.failed r'
       = NotificationService.successful r + NotificationService.failed r
         + Z.of_nat (length emails)
    /\ NotificationService.failed_emails r'
       = (NotificationService.failed_emails r
          ++ List.filter
               (fun e => match send e with Ok true => false | _ => true end) emails)%list
    /\ NotificationService.failed r' - NotificationService.failed r
       = Z.of_nat (length (NotificationService.failed_emails r'))
         - Z.of_nat (length (NotificationService.failed_emails r)).
Proof.
  induction emails as [|email rest IH]; intros r; simpl.
  - rewrite app_nil_r. repeat split; lia.
  - destruct (IH (NotificationService.step send r email)) as (Ht & Hsum & Hf & Hn).
    unfold NotificationService.step in *.
    destruct (send email) as [[|]|e]; simpl in *;
      (split; [exact Ht|]; split; [lia|]; split;
       [rewrite Hf; try rewrite <- app_assoc; reflexivity
       | try rewrite length_app in Hn; simpl in Hn; lia]).
Qed.

(** X22. The counts of a batch of notifications, whatever each send does:
    [total] is the number of addresses, every address is counted once as
    successful or as failed, [failed_emails] lists, in order, exactly the
    addresses whose send returned [False] or raised, and [failed] is its
    length. With the class's own [send_email], which always returns
    [True], nothing fails. *)
Theorem batch_counts_add_up (send : string -> result bool) (emails : list string) :
  let r := NotificationService.send_batch send emails in
  NotificationService.total r = Z.of_nat (length emails)
  /\ NotificationService.successful r + NotificationService.failed r
     = NotificationService.total r
  /\ NotificationService.failed_emails r
     = List.filter (fun e => match send e with Ok true => false | _ => true end) emails
  /\ NotificationService.failed r
     = Z.of_nat (length (NotificationService.failed_emails r))
  /\ NotificationService.send_event_cancellation_notification emails
     = NotificationService.mkResults (Z.of_nat (length emails))
         (Z.of_nat (length emails)) 0 [].
Proof.
  simpl.
  assert (Hgen : forall send',
            let r := NotificationService.send_batch send' emails in
            NotificationService.total r = Z.of_nat (length emails)
            /\ NotificationService.successful r + NotificationService.failed r
               = NotificationService.total r
            /\ NotificationService.failed_emails r
               = List.filter
                   (fun e => match send' e with Ok true => false | _ => true end) emails
            /\ NotificationService.failed r
               = Z.of_nat (length (NotificationService.failed_emails r))).
  { intros send'. simpl. unfold NotificationService.send_batch.
    destruct (batch_fold send' emails
                (NotificationService.mkResults (Z.of_nat (length emails)) 0 0 []))
      as (Ht & Hsum & Hf & Hn).
    simpl in *. repeat split; try assumption; lia. }
  destruct (Hgen send) as (H1 & H2 & H3 & H4).
  repeat split; try assumption.
  destruct (Hgen NotificationService.send_email) as (G1 & G2 & G3 & G4).
  unfold NotificationService.send_event_cancellation_notification.
  destruct (NotificationService.send_batch NotificationService.send_email emails)
    as [t s f fe].
  simpl in *.
  assert (fe = []) as ->.
  { rewrite G3. clear. induction emails; [reflexivity|exact IHemails]. }
  simpl in *. f_equal; lia.
Qed.

Example batch_sample :
  NotificationService.send_batch
    (fun e => if String.eqb e "b@x.org" then Ok false
              else if String.eqb e "c@x.org" then Raise (ValueError "smtp") else Ok true)
    ["a@x.org"; "b@x.org"; "c@x.org"; "d@x.org"]
  = NotificationService.mkResults 4 2 2 ["b@x.org"; "c@x.org"].
Proof. vm_compute. reflexivity. Qed.

(** ** What the missing lookup reaches *)

(** X25. Reading an order and verifying a ticket start with
    [OrderService.get] too: [read_order] (both halves),
    [get_order_with_event_details], [verify_ticket] and [check_in_ticket]
    raise its [AttributeError] for every order id, caller and store; none
    of them answers with the order, a 404, a 403 or "Ticket not found". *)
Theorem lookups_raise (status_text : OrderStatus -> string) (users : gmap Z User.t)
    (order_id : Z) (current_user : User.t) (db : DB) :
  OrderService.get order_id db = Raise missing_get
  /\ OrderService.get_order_with_event_details order_id db = Raise missing_get
  /\ ReadOrder.read_order order_id current_user db = Raise missing_get
  /\ ReadOrder.read_order_first order_id current_user db = Raise missing_get
  /\ TicketService.verify_ticket status_text users order_id db = Raise missing_get
  /\ TicketService.check_in_ticket status_text users order_id db = Raise missing_get.
Proof. repeat split. Qed.

(** X26. The background payment task never marks an order PAID. It asks the
    gateway first; when the gateway refuses, the task returns the refusal;
    when the gateway accepts, the status update raises inside the [try]
    and the task returns a failure whose error is the text of the
    [AttributeError]. In both cases [success] is false, no payment id is
    passed on, and the store is left as it was. *)
Theorem task_never_marks_paid (order_id : Z) (amount : float) (payment_method : string)
    (payment_details : PaymentDetails.t) (now : Z) (uuid_hex : string) (db : DB) :
  let gateway :=
    PaymentService.process_payment amount payment_method payment_details uuid_hex in
  let out :=
    PaymentTasks.process_payment_async order_id amount payment_method payment_details
      now uuid_hex db in
  snd out = db
  /\ PaymentResult.success (fst out) = false
  /\ PaymentResult.payment_id (fst out) = None
  /\ (PaymentResult.success gateway = false -> fst out = gateway)
  /\ (PaymentResult.success gateway = true ->
      PaymentResult.error (fst out)
      = Some "Payment processing error: 'OrderService' object has no attribute 'get'").
Proof.
  simpl. unfold PaymentTasks.process_payment_async.
  rewrite update_status_raises.
  unfold PaymentService.process_payment.
  destruct (String.eqb payment_method "credit_card"
            && negb (PaymentService._validate_credit_card payment_details));
    simpl; repeat split; discriminate.
Qed.

(** ** Release is capped *)

Lemma increase_result (i q : Z) (e : Event.t) (db : DB) :
  events db !! i = Some e ->
  EventService.increase_available_tickets i q db
  = (true,
     save_event i
       (Event.with_available_tickets e
          (Z.min (Event.available_tickets e + q) (Event.total_capacity e))) db).
Proof.
  intros Hget. unfold EventService.increase_available_tickets, EventService.get.
  now rewrite Hget.
Qed.

(** X2. Releasing tickets never takes an event above its capacity, whatever
    the quantity and whatever the event held before; and once a release
    has filled the event, releasing any further non-negative quantity
    leaves the store as it is. *)
Theorem release_is_capped (event_id q q' : Z) (e : Event.t) (db : DB) :
  EventService.get event_id db = Some e ->
  let db1 := snd (EventService.increase_available_tickets event_id q db) in
  (exists e1,
     EventService.get event_id db1 = Some e1
     /\ Event.available_tickets e1 <= Event.total_capacity e1
     /\ Event.total_capacity e1 = Event.total_capacity e)
  /\ (Event.total_capacity e <= Event.available_tickets e + q ->
      0 <= q' ->
      EventService.increase_available_tickets event_id q' db1 = (true, db1)).
Proof.
  intros Hget. unfold EventService.get in Hget.
  rewrite (increase_result event_id q e db Hget). simpl.
  set (e1 := Event.with_available_tickets e _).
  assert (Hget1 : events (save_event event_id e1 db) !! event_id = Some e1)
    by apply lookup_insert_eq.
  split.
  - exists e1. split; [exact Hget1|]. subst e1. destruct e; simpl.
    split; [apply Z.le_min_r | reflexivity].
  - intros Hfull Hq'. rewrite (increase_result event_id q' e1 _ Hget1). f_equal.
    unfold save_event, with_events. simpl. f_equal. rewrite insert_insert_eq. f_equal.
    subst e1. destruct e; simpl in *. unfold Event.with_available_tickets. simpl.
    f_equal. lia.
Qed.

Lemma release_is_capped_witness :
  EventService.increase_available_tickets 1 2
    (snd (EventService.increase_available_tickets 1 5 (sample_db 10 7)))
  = (true, snd (EventService.increase_available_tickets 1 5 (sample_db 10 7))).
Proof.
  apply (proj2 (release_is_capped 1 5 2 (sample_event 10 7) (sample_db 10 7) eq_refl)).
  - simpl. lia.
  - lia.
Defined.
